(** * Issue classifier: a shallow embedding of [classify.js]

    The development follows the class [IssueClassifier]:
    - JavaScript strings are sequences of UTF-16 code units;
    - the two regular expressions of [extractJSON] are run by a small
      backtracking matcher in the style of the ECMAScript semantics;
    - [JSON.parse] is a recursive-descent parser of the JSON grammar;
    - provider calls, client creation and console output are effects of a
      state-and-exception monad over an arbitrary world. *)

From Stdlib Require Import String Ascii List NArith Arith Bool Lia.
Import ListNotations.

Set Implicit Arguments.
Set Warnings "-register-all".

(** ** JavaScript strings *)

Module JsString.

(** A UTF-16 code unit. *)
Definition cu := N.

Definition jsstring := list cu.

(** Code units of a source literal (the literals of this file are ASCII). *)
Definition lit (s : string) : jsstring :=
  map N_of_ascii (list_ascii_of_string s).

(** The double quote, U+0022. *)
Definition dq : jsstring := [34%N].

Definition cu_eqb (a b : cu) : bool := N.eqb a b.

Fixpoint str_eqb (a b : jsstring) : bool :=
  match a, b with
  | [], [] => true
  | x :: a', y :: b' => cu_eqb x y && str_eqb a' b'
  | _, _ => false
  end.

(** WhiteSpace and LineTerminator of ECMAScript: what [trim] removes and
    what the class escape [\s] accepts. *)
Definition is_space (c : cu) : bool :=
  ((9 <=? c) && (c <=? 13) || (c =? 32) || (c =? 160) || (c =? 5760)
   || (8192 <=? c) && (c <=? 8202)
   || (c =? 8232) || (c =? 8233) || (c =? 8239) || (c =? 8287)
   || (c =? 12288) || (c =? 65279))%N.

Fixpoint trimStart (s : jsstring) : jsstring :=
  match s with
  | c :: s' => if is_space c then trimStart s' else s
  | [] => []
  end.

Definition trimEnd (s : jsstring) : jsstring := rev (trimStart (rev s)).

(** [String.prototype.trim] *)
Definition trim (s : jsstring) : jsstring := trimEnd (trimStart s).

(** [Array.prototype.join] on an array of strings. *)
Fixpoint join (sep : jsstring) (xs : list jsstring) : jsstring :=
  match xs with
  | [] => []
  | [x] => x
  | x :: xs' => x ++ sep ++ join sep xs'
  end.

Fixpoint is_prefix (w s : jsstring) : bool :=
  match w, s with
  | [], _ => true
  | a :: w', b :: s' => cu_eqb a b && is_prefix w' s'
  | _ :: _, [] => false
  end.

(** [s.includes(w)] *)
Fixpoint includes (s w : jsstring) : bool :=
  is_prefix w s ||
  match s with
  | [] => false
  | _ :: s' => includes s' w
  end.

End JsString.
Import JsString.

(** ** Regular expressions *)

Module RegExp.

(** The pattern constructs that occur in [classify.js]. *)
Inductive regex : Type :=
| RChar (c : cu)                  (* a literal character, also escaped: \{ *)
| RClass (accepts : cu -> bool)   (* a character class: [\s\S] *)
| RSeq (r1 r2 : regex)
| RAlt (r1 r2 : regex)            (* r1|r2, left alternative first *)
| RStar (r : regex)               (* r*, greedy *)
| REmpty.                         (* the empty pattern *)

(** A run of literal characters. *)
Fixpoint RLit (s : jsstring) : regex :=
  match s with
  | [] => REmpty
  | c :: s' => RSeq (RChar c) (RLit s')
  end.

(** RepeatMatcher for a greedy star: one more iteration of [m] first, the
    continuation [k] when that fails.  An iteration that consumes nothing is
    rejected.  [fuel] bounds the iterations by the length of the input. *)
Fixpoint repeat_matcher
    (m : jsstring -> (jsstring -> option jsstring) -> option jsstring)
    (k : jsstring -> option jsstring) (fuel : nat) (s : jsstring)
    : option jsstring :=
  match fuel with
  | O => k s
  | S fuel' =>
      match m s (fun s' => if length s' <? length s
                           then repeat_matcher m k fuel' s' else None) with
      | Some rest => Some rest
      | None => k s
      end
  end.

(** Backtracking matcher with a continuation: [matcher r s k] matches [r] at
    the head of [s] and hands the remaining input to [k]; when [k] fails the
    matcher tries its next choice. *)
Fixpoint matcher (r : regex) (s : jsstring)
    (k : jsstring -> option jsstring) {struct r} : option jsstring :=
  match r with
  | RChar c =>
      match s with
      | x :: s' => if cu_eqb x c then k s' else None
      | [] => None
      end
  | RClass accepts =>
      match s with
      | x :: s' => if accepts x then k s' else None
      | [] => None
      end
  | RSeq r1 r2 => matcher r1 s (fun s' => matcher r2 s' k)
  | RAlt r1 r2 =>
      match matcher r1 s k with
      | Some rest => Some rest
      | None => matcher r2 s k
      end
  | RStar r1 => repeat_matcher (matcher r1) k (length s) s
  | REmpty => k s
  end.

(** A match at the head of [s]: the matched text and what follows it. *)
Definition match_here (r : regex) (s : jsstring) : option (jsstring * jsstring) :=
  match matcher r s Some with
  | Some rest => Some (firstn (length s - length rest) s, rest)
  | None => None
  end.

(** RegExpBuiltinExec without flags: the leftmost position with a match.
    The result holds the text before the match and the match itself. *)
Fixpoint exec (r : regex) (s : jsstring) : option (jsstring * jsstring) :=
  match match_here r s with
  | Some (m, _) => Some ([], m)
  | None =>
      match s with
      | [] => None
      | c :: s' =>
          match exec r s' with
          | Some (pre, m) => Some (c :: pre, m)
          | None => None
          end
      end
  end.

(** [s.match(r)[0]] for a pattern without the g flag; [None] is [null]. *)
Definition str_match (s : jsstring) (r : regex) : option jsstring :=
  match exec r s with
  | Some (_, m) => Some m
  | None => None
  end.

(** [s.replace(r, by)] for a pattern with the g flag.  [skip] counts the
    code units of the current match that are still to be dropped.  After an
    empty match the scan moves on by one code unit, which is kept. *)
Fixpoint replace_from (r : regex) (by_ : jsstring) (skip : nat) (s : jsstring)
    : jsstring :=
  match skip, s with
  | S skip', _ :: s' => replace_from r by_ skip' s'
  | S _, [] => []
  | O, [] =>
      match match_here r [] with
      | Some _ => by_
      | None => []
      end
  | O, c :: s' =>
      match match_here r s with
      | Some (m, _) =>
          match length m with
          | O => by_ ++ c :: replace_from r by_ 0 s'
          | S n => by_ ++ replace_from r by_ n s'
          end
      | None => c :: replace_from r by_ 0 s'
      end
  end.

Definition replace_all (s : jsstring) (r : regex) (by_ : jsstring) : jsstring :=
  replace_from r by_ 0 s.

End RegExp.
Import RegExp.

(** ** JavaScript values and JSON.parse *)

Module Json.

(** The data values that occur: what [JSON.parse] builds and what the SDK
    hands back as a response body, plus [undefined] for an absent property.
    A number is kept as its lexeme: nothing here depends on its binary64
    value.  An object is the list of its own properties in creation order
    (the engine lists integer-like keys first; nothing here enumerates). *)
Inductive value : Type :=
| VUndefined
| VNull
| VBool (b : bool)
| VNum (lexeme : jsstring)
| VStr (s : jsstring)
| VArr (xs : list value)
| VObj (props : list (jsstring * value)).

(** CreateDataProperty: a repeated key keeps its place and takes the new value. *)
Fixpoint set_prop (key : jsstring) (v : value) (props : list (jsstring * value))
    : list (jsstring * value) :=
  match props with
  | [] => [(key, v)]
  | (k', v') :: ps =>
      if str_eqb k' key then (k', v) :: ps else (k', v') :: set_prop key v ps
  end.

Fixpoint own_prop (key : jsstring) (props : list (jsstring * value)) : value :=
  match props with
  | [] => VUndefined
  | (k', v') :: ps => if str_eqb k' key then v' else own_prop key ps
  end.

Inductive presult (A : Type) : Type :=
| POk (a : A)
| PFail
| PFuel.
Arguments PFail {A}.
Arguments PFuel {A}.

(** JSON white space: tab, line feed, carriage return, space. *)
Definition is_json_ws (c : cu) : bool :=
  ((c =? 9) || (c =? 10) || (c =? 13) || (c =? 32))%N.

Fixpoint skip_ws (s : jsstring) : jsstring :=
  match s with
  | c :: s' => if is_json_ws c then skip_ws s' else s
  | [] => []
  end.

Definition is_digit (c : cu) : bool := ((48 <=? c) && (c <=? 57))%N.

Definition hex_val (c : cu) : option N :=
  if is_digit c then Some (c - 48)%N
  else if ((65 <=? c) && (c <=? 70))%N then Some (c - 55)%N
  else if ((97 <=? c) && (c <=? 102))%N then Some (c - 87)%N
  else None.

Definition hex4 (a b c d : cu) : option cu :=
  match hex_val a, hex_val b, hex_val c, hex_val d with
  | Some x, Some y, Some z, Some w => Some (((x * 16 + y) * 16 + z) * 16 + w)%N
  | _, _, _, _ => None
  end.

(** The one-character escapes: quote, backslash, slash, b, f, n, r, t. *)
Definition simple_escape (e : cu) : option cu :=
  if (e =? 34)%N then Some 34%N
  else if (e =? 92)%N then Some 92%N
  else if (e =? 47)%N then Some 47%N
  else if (e =? 98)%N then Some 8%N
  else if (e =? 102)%N then Some 12%N
  else if (e =? 110)%N then Some 10%N
  else if (e =? 114)%N then Some 13%N
  else if (e =? 116)%N then Some 9%N
  else None.

(** The characters of a string after its opening quote, up to and including
    the closing quote. *)
Fixpoint parse_chars (s : jsstring) (acc : jsstring) : option (jsstring * jsstring) :=
  match s with
  | [] => None
  | c :: rest =>
      if (c =? 34)%N then Some (rev acc, rest)
      else if (c =? 92)%N then
        match rest with
        | [] => None
        | e :: rest1 =>
            if (e =? 117)%N then
              match rest1 with
              | h1 :: h2 :: h3 :: h4 :: rest2 =>
                  match hex4 h1 h2 h3 h4 with
                  | Some u => parse_chars rest2 (u :: acc)
                  | None => None
                  end
              | _ => None
              end
            else
              match simple_escape e with
              | Some u => parse_chars rest1 (u :: acc)
              | None => None
              end
        end
      else if (c <? 32)%N then None
      else parse_chars rest (c :: acc)
  end.

Fixpoint span_digits (s : jsstring) : jsstring * jsstring :=
  match s with
  | c :: s' =>
      if is_digit c then let (d, r) := span_digits s' in (c :: d, r)
      else ([], s)
  | [] => ([], [])
  end.

(** Digits that must not be empty (after a point or an exponent mark). *)
Definition digits1 (s : jsstring) : option (jsstring * jsstring) :=
  match span_digits s with
  | ([], _) => None
  | (d, r) => Some (d, r)
  end.

Definition parse_int (s : jsstring) : option (jsstring * jsstring) :=
  match s with
  | c :: s' =>
      if (c =? 48)%N then Some ([c], s')
      else if is_digit c then let (d, r) := span_digits s' in Some (c :: d, r)
      else None
  | [] => None
  end.

Definition parse_frac (s : jsstring) : option (jsstring * jsstring) :=
  match s with
  | c :: s' =>
      if (c =? 46)%N then
        match digits1 s' with
        | Some (d, r) => Some (c :: d, r)
        | None => None
        end
      else Some ([], s)
  | [] => Some ([], [])
  end.

Definition parse_exp (s : jsstring) : option (jsstring * jsstring) :=
  match s with
  | c :: s' =>
      if ((c =? 101) || (c =? 69))%N then
        match s' with
        | g :: s'' =>
            if ((g =? 43) || (g =? 45))%N then
              match digits1 s'' with
              | Some (d, r) => Some (c :: g :: d, r)
              | None => None
              end
            else
              match digits1 s' with
              | Some (d, r) => Some (c :: d, r)
              | None => None
              end
        | [] => None
        end
      else Some ([], s)
  | [] => Some ([], [])
  end.

(** -? int frac? exp? *)
Definition parse_number (s : jsstring) : option (jsstring * jsstring) :=
  let '(sign, s0) :=
    match s with
    | c :: s' => if (c =? 45)%N then ([c], s') else ([], s)
    | [] => ([], [])
    end in
  match parse_int s0 with
  | None => None
  | Some (i, s1) =>
      match parse_frac s1 with
      | None => None
      | Some (f, s2) =>
          match parse_exp s2 with
          | None => None
          | Some (e, s3) => Some (sign ++ i ++ f ++ e, s3)
          end
      end
  end.

(** [keyword w s]: the input after the word [w], when [s] starts with it. *)
Fixpoint keyword (w s : jsstring) : option jsstring :=
  match w, s with
  | [], _ => Some s
  | a :: w', b :: s' => if cu_eqb a b then keyword w' s' else None
  | _ :: _, [] => None
  end.

Fixpoint parse_value (fuel : nat) (s : jsstring) {struct fuel}
    : presult (value * jsstring) :=
  match fuel with
  | O => PFuel
  | S fuel' =>
      match skip_ws s with
      | [] => PFail
      | c :: r =>
          if (c =? 123)%N then
            match skip_ws r with
            | [] => PFail
            | c' :: r' =>
                if (c' =? 125)%N then POk (VObj [], r')
                else parse_members fuel' (c' :: r') []
            end
          else if (c =? 91)%N then
            match skip_ws r with
            | [] => PFail
            | c' :: r' =>
                if (c' =? 93)%N then POk (VArr [], r')
                else parse_elements fuel' (c' :: r') []
            end
          else if (c =? 34)%N then
            match parse_chars r [] with
            | Some (str, r') => POk (VStr str, r')
            | None => PFail
            end
          else
            match keyword (lit "true") (c :: r) with
            | Some r' => POk (VBool true, r')
            | None =>
            match keyword (lit "false") (c :: r) with
            | Some r' => POk (VBool false, r')
            | None =>
            match keyword (lit "null") (c :: r) with
            | Some r' => POk (VNull, r')
            | None =>
            match parse_number (c :: r) with
            | Some (lexeme, r') => POk (VNum lexeme, r')
            | None => PFail
            end end end end
      end
  end

with parse_elements (fuel : nat) (s : jsstring) (acc : list value) {struct fuel}
    : presult (value * jsstring) :=
  match fuel with
  | O => PFuel
  | S fuel' =>
      match parse_value fuel' s with
      | PFuel => PFuel
      | PFail => PFail
      | POk (v, r) =>
          match skip_ws r with
          | [] => PFail
          | c :: r' =>
              if (c =? 44)%N then parse_elements fuel' r' (v :: acc)
              else if (c =? 93)%N then POk (VArr (rev (v :: acc)), r')
              else PFail
          end
      end
  end

with parse_members (fuel : nat) (s : jsstring) (acc : list (jsstring * value))
    {struct fuel} : presult (value * jsstring) :=
  match fuel with
  | O => PFuel
  | S fuel' =>
      match skip_ws s with
      | [] => PFail
      | q :: r =>
          if (q =? 34)%N then
            match parse_chars r [] with
            | None => PFail
            | Some (key, r1) =>
                match skip_ws r1 with
                | [] => PFail
                | c1 :: r2 =>
                    if (c1 =? 58)%N then
                      match parse_value fuel' r2 with
                      | PFuel => PFuel
                      | PFail => PFail
                      | POk (v, r3) =>
                          match skip_ws r3 with
                          | [] => PFail
                          | c3 :: r4 =>
                              if (c3 =? 44)%N
                              then parse_members fuel' r4 (set_prop key v acc)
                              else if (c3 =? 125)%N
                              then POk (VObj (set_prop key v acc), r4)
                              else PFail
                          end
                      end
                    else PFail
                end
            end
          else PFail
      end
  end.

(** Enough fuel for any text: two steps for each code unit
    (see [parse_value_fuel]). *)
Definition parse_fuel (s : jsstring) : nat := 2 * length s + 1.

(** [JSON.parse(text)]: one value, with nothing but white space after it.
    [None] is the SyntaxError. *)
Definition JSON_parse (text : jsstring) : option value :=
  match parse_value (parse_fuel text) text with
  | POk (v, r) =>
      match skip_ws r with
      | [] => Some v
      | _ :: _ => None
      end
  | PFail => None
  | PFuel => None
  end.

(** A parsing step that leaves less input than it was given. *)
Definition consumes {A} (p : presult (A * jsstring)) (s : jsstring) : Prop :=
  forall a r, p = POk (a, r) -> length r < length s.

End Json.
Import Json.


(** ** Errors, provider requests and observable events *)

Module Effects.

(** What a [throw] carries.  The messages that the engine writes for its own
    TypeError and SyntaxError are left out. *)
Inductive exn : Type :=
| JsError (message : jsstring)          (* new Error(message) *)
| JsTypeError      (* a property of undefined or null is read; a non-function is called *)
| JsSyntaxError    (* JSON.parse *)
| SdkError (name message : jsstring).   (* the Error instance a provider call rejects with *)

Definition result (A : Type) : Type := (exn + A)%type.

(** A client of the OpenAI SDK: [new OpenAI({ apiKey, baseURL })].
    A credential is a string or is missing ([undefined]). *)
Record client : Type := { apiKey : option jsstring; baseURL : jsstring }.

Record chat_message : Type := { role : jsstring; content : jsstring }.

(** The argument of [chat.completions.create]. *)
Record request : Type :=
  { model : option jsstring; messages : list chat_message; max_tokens : N }.

(** How a provider call ends: the awaited promise is fulfilled with the
    response body, which is any data value, or rejected.  The SDK rejects
    with instances of Error, so what is thrown always has a [message]. *)
Inductive outcome : Type :=
| Fulfilled (response : value)
| Rejected (e : exn).

Inductive console_level : Type := Log | Warn | Error.

Inductive console_arg : Type :=
| ArgStr (s : jsstring)
| ArgVal (v : value)
| ArgMessage (e : exn).     (* err.message *)

Inductive event : Type :=
| EvNewClient (c : client)
| EvCreate (c : client) (req : request)
| EvConsole (level : console_level) (args : list console_arg).

Definition is_create (e : event) : bool :=
  match e with EvCreate _ _ => true | _ => false end.

End Effects.
Import Effects.

(** ** Property reads *)

Module Access.

Fixpoint uint_digits (d : Decimal.uint) : jsstring :=
  match d with
  | Decimal.Nil => []
  | Decimal.D0 d' => 48%N :: uint_digits d'
  | Decimal.D1 d' => 49%N :: uint_digits d'
  | Decimal.D2 d' => 50%N :: uint_digits d'
  | Decimal.D3 d' => 51%N :: uint_digits d'
  | Decimal.D4 d' => 52%N :: uint_digits d'
  | Decimal.D5 d' => 53%N :: uint_digits d'
  | Decimal.D6 d' => 54%N :: uint_digits d'
  | Decimal.D7 d' => 55%N :: uint_digits d'
  | Decimal.D8 d' => 56%N :: uint_digits d'
  | Decimal.D9 d' => 57%N :: uint_digits d'
  end.

(** ToString of an array index. *)
Definition index_key (i : nat) : jsstring :=
  match Nat.to_uint i with
  | Decimal.Nil => [48%N]
  | d => uint_digits d
  end.

(** [v.name] for a name that is not an array index.  Inherited properties
    are not modelled: the names that [classify.js] reads (choices, message,
    content) are on no built-in prototype. *)
Definition get_prop (v : value) (name : jsstring) : result value :=
  match v with
  | VUndefined | VNull => inl JsTypeError
  | VObj props => inr (own_prop name props)
  | VArr xs =>
      if str_eqb name (lit "length") then inr (VNum (index_key (length xs)))
      else inr VUndefined
  | VStr s =>
      if str_eqb name (lit "length") then inr (VNum (index_key (length s)))
      else inr VUndefined
  | VBool _ | VNum _ => inr VUndefined
  end.

(** [v[i]] for an array index [i]. *)
Definition get_index (v : value) (i : nat) : result value :=
  match v with
  | VUndefined | VNull => inl JsTypeError
  | VObj props => inr (own_prop (index_key i) props)
  | VArr xs => inr (nth i xs VUndefined)
  | VStr s =>
      match nth_error s i with
      | Some c => inr (VStr [c])
      | None => inr VUndefined
      end
  | VBool _ | VNum _ => inr VUndefined
  end.

End Access.
Import Access.

(** ** The class IssueClassifier *)

Module Config.
(** The constructor's argument: each credential is a string or is missing. *)
Record t : Type :=
  { mosaiaApiKey : option jsstring;
    mosaiaAgentId : option jsstring;
    openRouterApiKey : option jsstring }.
End Config.

(** ToBoolean of a credential: missing and the empty string are falsy. *)
Definition truthy (x : option jsstring) : bool :=
  match x with
  | Some (_ :: _) => true
  | Some [] | None => false
  end.

Record IssueClassifier : Type :=
  { mosaiaClient : client;
    fallbackClient : client;
    mosaiaAgentId : option jsstring }.

Definition nl : jsstring := [10%N].

(** The pattern [/```json|```/g]. *)
Definition fence_re : regex :=
  RAlt (RLit (lit "```json")) (RLit (lit "```")).

(** The pattern [/\{[\s\S]*\}/]. *)
Definition brace_re : regex :=
  RSeq (RChar 123%N)
    (RSeq (RStar (RClass (fun c => is_space c || negb (is_space c))))
          (RChar 125%N)).

(** The continuation of [[\s\S]*] in the brace pattern: a closing brace. *)
Definition close_k (t : jsstring) : option jsstring :=
  matcher (RChar 125%N) t Some.

Definition no_json_message : jsstring := lit "No JSON found in model response".

(** [extractJSON(text)].  A [text] that is not a string has no method
    [replace]: the call on line 110 raises a TypeError. *)
Definition extractJSON (text : value) : result value :=
  match text with
  | VStr s =>
      let cleaned := trim (replace_all s fence_re []) in
      match str_match cleaned brace_re with
      | None => inl (JsError no_json_message)
      | Some m0 =>
          match JSON_parse m0 with
          | Some v => inr v
          | None => inl JsSyntaxError
          end
      end
  | _ => inl JsTypeError
  end.

Definition tpl_rubric : jsstring :=
  nl
  ++ lit "    You are an expert AI assistant specializing in classifying GitHub issues by difficulty: easy, medium, or difficult." ++ nl
  ++ nl
  ++ lit "    Use the following criteria for classification:" ++ nl
  ++ nl
  ++ lit "    - **Easy:** Issues that involve minor bug fixes or simple UI/UX adjustments with minimal code changes. These tasks are well-scoped, localized to a specific module or component, have low risk of side effects, and can typically be resolved quickly without extensive debugging or testing. Examples include fixing typos, small layout corrections, or straightforward event handling fixes." ++ nl
  ++ lit "    - **Medium:** Issues that require moderate debugging, code refactoring, or the addition of new features that impact multiple components or modules. These tasks demand a solid understanding of the overall system architecture, asynchronous flows, or state management. They may involve integrating with third-party APIs, updating data flows, or handling edge cases. Testing and validation across different environments or devices may be necessary to ensure stability." ++ nl
  ++ lit "    - **Difficult:** Complex challenges involving significant architectural redesign, cross-platform or multi-service integration, critical security improvements, or major performance optimizations. These issues require deep expertise in the technology stack, comprehensive knowledge of system dependencies, and careful planning to minimize risks. They often necessitate extensive code changes, multi-phase development, thorough testing (including regression and load testing), and possibly coordination across teams." ++ nl
  ++ nl
  ++ lit "    Analyze the issue considering:" ++ nl
  ++ lit "    - Title" ++ nl
  ++ lit "    - Description" ++ nl
  ++ lit "    - Programming language and relevant technology stack" ++ nl
  ++ lit "    - Issue labels: ".

Definition tpl_task : jsstring :=
  nl
  ++ lit "    - Complexity of debugging, implementation, or testing needed" ++ nl
  ++ lit "    - Potential impact on the overall system" ++ nl
  ++ nl
  ++ lit "    **IMPORTANT:** Respond ONLY with a JSON object in the following format, without any explanation:" ++ nl
  ++ nl
  ++ lit "    { " ++ dq ++ lit "difficulty" ++ dq ++ lit ": " ++ dq ++ lit "easy" ++ dq ++ lit " | " ++ dq ++ lit "medium" ++ dq ++ lit " | " ++ dq ++ lit "difficult" ++ dq ++ lit " }" ++ nl
  ++ nl
  ++ lit "    Example:" ++ nl
  ++ nl
  ++ lit "    { " ++ dq ++ lit "difficulty" ++ dq ++ lit ": " ++ dq ++ lit "easy" ++ dq ++ lit " }" ++ nl
  ++ nl
  ++ lit "    Classify this issue:" ++ nl
  ++ nl.

Definition tpl_title : jsstring :=
  lit "    Title: ".

Definition tpl_description : jsstring :=
  nl
  ++ lit "    Description: ".

Definition tpl_language : jsstring :=
  nl
  ++ lit "    Language: ".

Definition tpl_labels : jsstring :=
  nl
  ++ lit "    Labels: ".

Definition tpl_end : jsstring :=
  nl
  ++ lit "    ".

(** [buildPrompt(title, description, language, labels = [])]: the template
    literal of lines 130-161; [None] is an omitted [labels]. *)
Definition buildPrompt (title description language : jsstring)
    (labels : option (list jsstring)) : jsstring :=
  let labels := match labels with Some ls => ls | None => [] end in
  let labelString :=
    if 0 <? length labels then join (lit ", ") labels else lit "None" in
  tpl_rubric ++ labelString ++ tpl_task ++ tpl_title ++ title
  ++ tpl_description ++ description
  ++ tpl_language ++ language
  ++ tpl_labels ++ labelString ++ tpl_end.

Definition fallback_model : jsstring :=
  lit "mistralai/mistral-small-3.2-24b-instruct:free".

Definition constructor_message : jsstring :=
  lit "All API keys and agent IDs must be provided: mosaiaApiKey, mosaiaAgentId, openRouterApiKey".

(** The request of both attempts: one user message, at most 500 tokens. *)
Definition completion_request (model : option jsstring) (prompt : jsstring)
    : request :=
  {| model := model;
     messages := [ {| role := lit "user"; content := prompt |} ];
     max_tokens := 500 |}.

Section Classifier.

(** The world outside the program: its state, and how a provider call
    ends and changes it.  Nothing is assumed about either. *)
Variable World : Type.
Variable completions_create : client -> request -> World -> outcome * World.

Record state : Type := { world : World; trace : list event }.

(** Computations that read and change the world, extend the trace, and
    return or throw. *)
Definition M (A : Type) : Type := state -> result A * state.

Definition ret {A} (a : A) : M A := fun st => (inr a, st).

Definition throw {A} (e : exn) : M A := fun st => (inl e, st).

Definition bind {A B} (c : M A) (k : A -> M B) : M B :=
  fun st =>
    match c st with
    | (inr a, st') => k a st'
    | (inl e, st') => (inl e, st')
    end.

(** [try { body } catch (err) { handler }] *)
Definition try_catch {A} (body : M A) (handler : exn -> M A) : M A :=
  fun st =>
    match body st with
    | (inr a, st') => (inr a, st')
    | (inl e, st') => handler e st'
    end.

Definition lift {A} (r : result A) : M A := fun st => (r, st).

Definition emit (e : event) : M unit :=
  fun st => (inr tt, {| world := world st; trace := trace st ++ [e] |}).

Notation "x <- c ;; k" := (bind c (fun x => k))
  (at level 61, c at next level, right associativity).
Notation "c ;; k" := (bind c (fun _ => k))
  (at level 61, right associativity).

(** [new OpenAI({ apiKey, baseURL })]: the constructor of the SDK, given a
    key, builds a client and throws nothing; nothing is sent yet. *)
Definition new_OpenAI (key : option jsstring) (url : jsstring) : M client :=
  let c := {| apiKey := key; baseURL := url |} in
  emit (EvNewClient c) ;; ret c.

(** [await client.chat.completions.create(req)] *)
Definition chat_completions_create (c : client) (req : request) : M value :=
  emit (EvCreate c req) ;;
  fun st =>
    match completions_create c req (world st) with
    | (Fulfilled v, w') => (inr v, {| world := w'; trace := trace st |})
    | (Rejected e, w') => (inl e, {| world := w'; trace := trace st |})
    end.

Definition console (level : console_level) (args : list console_arg) : M unit :=
  emit (EvConsole level args).

(** [new IssueClassifier({ mosaiaApiKey, mosaiaAgentId, openRouterApiKey })] *)
Definition constructor (cfg : Config.t) : M IssueClassifier :=
  if negb (truthy (Config.mosaiaApiKey cfg))
     || negb (truthy (Config.mosaiaAgentId cfg))
     || negb (truthy (Config.openRouterApiKey cfg))
  then throw (JsError constructor_message)
  else
    mosaia <- new_OpenAI (Config.mosaiaApiKey cfg)
                (lit "https://api.mosaia.ai/v1/agent") ;;
    fallback <- new_OpenAI (Config.openRouterApiKey cfg)
                  (lit "https://openrouter.ai/api/v1") ;;
    ret {| mosaiaClient := mosaia;
           fallbackClient := fallback;
           mosaiaAgentId := Config.mosaiaAgentId cfg |}.

(** [res.choices[0].message.content] *)
Definition first_choice_content (res : value) : result value :=
  match get_prop res (lit "choices") with
  | inl e => inl e
  | inr choices =>
      match get_index choices 0 with
      | inl e => inl e
      | inr choice =>
          match get_prop choice (lit "message") with
          | inl e => inl e
          | inr message => get_prop message (lit "content")
          end
      end
  end.

(** The body of the first [try] block, lines 178-186. *)
Definition primary_attempt (this : IssueClassifier) (prompt : jsstring) : M value :=
  mosaiaRes <- chat_completions_create (mosaiaClient this)
                 (completion_request (mosaiaAgentId this) prompt) ;;
  mosaiaText <- lift (first_choice_content mosaiaRes) ;;
  console Log [ArgStr (lit "[Mosaia] Raw response:"); ArgVal mosaiaText] ;;
  lift (extractJSON mosaiaText).

(** The body of the second [try] block, lines 193-201. *)
Definition fallback_attempt (this : IssueClassifier) (prompt : jsstring) : M value :=
  fallbackRes <- chat_completions_create (fallbackClient this)
                   (completion_request (Some fallback_model) prompt) ;;
  fallbackText <- lift (first_choice_content fallbackRes) ;;
  console Log [ArgStr (lit "[OpenRouter] Raw response:"); ArgVal fallbackText] ;;
  lift (extractJSON fallbackText).

(** [classifyIssue(title, description, language, labels = [])].  The first
    [try] either returns from the function ([Some]) or falls through to the
    fallback ([None]). *)
Definition classifyIssue (this : IssueClassifier)
    (title description language : jsstring) (labels : option (list jsstring))
    : M value :=
  let prompt := buildPrompt title description language labels in
  returned <- try_catch
                (v <- primary_attempt this prompt ;; ret (Some v))
                (fun err =>
                   console Warn [ArgStr (lit "[Mosaia] Failed:"); ArgMessage err] ;;
                   ret None) ;;
  match returned with
  | Some v => ret v
  | None =>
      try_catch
        (fallback_attempt this prompt)
        (fun fallbackErr =>
           console Error [ArgStr (lit "[OpenRouter] Failed:"); ArgMessage fallbackErr] ;;
           ret VNull)
  end.

End Classifier.

(** ** Outcomes and scenarios *)

(** What one attempt yields from the way its provider call ends. *)
Definition attempt_value (o : outcome) : result value :=
  match o with
  | Rejected e => inl e
  | Fulfilled res =>
      match first_choice_content res with
      | inl e => inl e
      | inr text => extractJSON text
      end
  end.

(** The state after one more event. *)
Definition logged {World} (st : state World) (ev : event) : state World :=
  {| world := world st; trace := trace st ++ [ev] |}.

(** What the two handlers write to the console. *)
Definition primary_failed (err : exn) : event :=
  EvConsole Warn [ArgStr (lit "[Mosaia] Failed:"); ArgMessage err].

Definition fallback_failed (fallbackErr : exn) : event :=
  EvConsole Error [ArgStr (lit "[OpenRouter] Failed:"); ArgMessage fallbackErr].

(** The provider calls among the events of a trace. *)
Definition calls (tr : list event) : list event := filter is_create tr.

(** A response body without a usable text: no first choice, a first choice
    without a message, or a message whose content is missing or null. *)
Inductive malformed_response : value -> Prop :=
| empty_choices props :
    own_prop (lit "choices") props = VArr [] ->
    malformed_response (VObj props)
| missing_message props cprops rest :
    own_prop (lit "choices") props = VArr (VObj cprops :: rest) ->
    own_prop (lit "message") cprops = VUndefined ->
    malformed_response (VObj props)
| missing_content props cprops rest mprops :
    own_prop (lit "choices") props = VArr (VObj cprops :: rest) ->
    own_prop (lit "message") cprops = VObj mprops ->
    own_prop (lit "content") mprops = VUndefined
    \/ own_prop (lit "content") mprops = VNull ->
    malformed_response (VObj props).

(** A well-formed response body with one choice. *)
Definition chat_response (text : jsstring) : value :=
  VObj [(lit "choices",
         VArr [VObj [(lit "message",
                      VObj [(lit "role", VStr (lit "assistant"));
                            (lit "content", VStr text)])]])].

(** The JSON text of an object with one string member. *)
Definition json_object1 (key val : jsstring) : jsstring :=
  lit "{" ++ dq ++ key ++ dq ++ lit ":" ++ dq ++ val ++ dq ++ lit "}".

Definition difficulty_text (d : string) : jsstring :=
  json_object1 (lit "difficulty") (lit d).

Definition difficulty_object (d : string) : value :=
  VObj [(lit "difficulty", VStr (lit d))].

Definition fenced_easy : jsstring :=
  lit "```json" ++ nl ++ difficulty_text "easy" ++ nl ++ lit "```".

Definition prose_medium : jsstring :=
  lit "Here is the result: " ++ difficulty_text "medium" ++ lit " thanks".

Definition sample_config : Config.t :=
  {| Config.mosaiaApiKey := Some (lit "mosaia-key");
     Config.mosaiaAgentId := Some (lit "6861a37adc8f3af29840e926");
     Config.openRouterApiKey := Some (lit "openrouter-key") |}.

Definition sample_classifier : IssueClassifier :=
  {| mosaiaClient := {| apiKey := Some (lit "mosaia-key");
                        baseURL := lit "https://api.mosaia.ai/v1/agent" |};
     fallbackClient := {| apiKey := Some (lit "openrouter-key");
                          baseURL := lit "https://openrouter.ai/api/v1" |};
     mosaiaAgentId := Some (lit "6861a37adc8f3af29840e926") |}.

(** Stubbed providers: the primary and the fallback each end in a fixed
    way; the world counts the calls. *)
Definition stubbed (primary fallback : outcome)
    (c : client) (req : request) (w : nat) : outcome * nat :=
  (if str_eqb (baseURL c) (lit "https://api.mosaia.ai/v1/agent")
   then primary else fallback, S w).

Definition connection_error : exn :=
  SdkError (lit "APIConnectionError") (lit "Connection error.").

Definition start : state nat := {| world := 0; trace := [] |}.

(** ** The specification's reading of extractJSON *)

Module Spec.

Definition lbrace : cu := 123%N.
Definition rbrace : cu := 125%N.

(** The text from its first opening brace on. *)
Fixpoint from_first_open (s : jsstring) : option jsstring :=
  match s with
  | [] => None
  | c :: s' => if (c =? lbrace)%N then Some s else from_first_open s'
  end.

(** The text up to and including its last closing brace. *)
Fixpoint upto_last_close (s : jsstring) : option jsstring :=
  match s with
  | [] => None
  | c :: s' =>
      match upto_last_close s' with
      | Some m => Some (c :: m)
      | None => if (c =? rbrace)%N then Some [c] else None
      end
  end.

(** The substring that begins with the first opening brace and ends with
    the last closing brace after it. *)
Definition brace_span (s : jsstring) : option jsstring :=
  match from_first_open s with
  | Some (c :: t) =>
      match upto_last_close t with
      | Some m => Some (c :: m)
      | None => None
      end
  | _ => None
  end.

(** Reading left to right, drop every fence marker: three backticks with
    the tag json, else three backticks alone.  [fuel] bounds the steps by
    the length of the text. *)
Fixpoint strip_fuel (fuel : nat) (s : jsstring) : jsstring :=
  match fuel with
  | O => []
  | S fuel' =>
      match keyword (lit "```json") s with
      | Some rest => strip_fuel fuel' rest
      | None =>
          match keyword (lit "```") s with
          | Some rest => strip_fuel fuel' rest
          | None =>
              match s with
              | [] => []
              | c :: s' => c :: strip_fuel fuel' s'
              end
          end
      end
  end.

Definition strip_fence_markers (s : jsstring) : jsstring :=
  strip_fuel (S (length s)) s.

End Spec.
Import Spec.

(** ** The entry point, [index.js] *)

Module Env.
(** The variables of [process.env] that [main] reads: each is a string or
    is not set. *)
Record t : Type :=
  { MOSAIA_API_KEY : option jsstring;
    MOSAIA_AGENT_ID : option jsstring;
    OPENAI_API_KEY : option jsstring }.
End Env.

Definition easyTitle : jsstring :=
  lit "Login button not working on Android".

Definition easyDescription : jsstring :=
  lit "After UI update, login button doesn't respond on Android devices.".

Definition easyLanguage : jsstring :=
  lit "JavaScript".

Definition easyLabels : list jsstring :=
  [lit "bug"].

Definition mediumTitle : jsstring :=
  lit "Optimize login flow to reduce race conditions on Android devices".

Definition mediumDescription : jsstring :=
  lit "Users occasionally experience login failures due to asynchronous API call race conditions in the login process on Android. Requires debugging async logic and refactoring state management.".

Definition mediumLanguage : jsstring :=
  lit "JavaScript".

Definition mediumLabels : list jsstring :=
  [lit "bug"; lit "performance"; lit "mobile"].

Definition difficultTitle : jsstring :=
  lit "Implement secure biometric authentication for mobile login".

Definition difficultDescription : jsstring :=
  lit "Add fingerprint and face ID authentication support to mobile apps, integrating native SDKs for both Android and iOS platforms, including fallback and error handling mechanisms.".

Definition difficultLanguage : jsstring :=
  lit "JavaScript / Java / Swift".

Definition difficultLabels : list jsstring :=
  [lit "feature"; lit "security"; lit "mobile"].

(** [x ? 'loaded' : 'missing'] *)
Definition loaded_or_missing (x : option jsstring) : jsstring :=
  if truthy x then lit "loaded" else lit "missing".

Section Main.

Variable World : Type.
Variable completions_create : client -> request -> World -> outcome * World.

Local Notation "x <- c ;; k" := (bind c (fun x => k))
  (at level 61, c at next level, right associativity).
Local Notation "c ;; k" := (bind c (fun _ => k))
  (at level 61, right associativity).

(** [main()], lines 5-61.  An error that it throws rejects the promise that
    line 63 drops. *)
Definition main (env : Env.t) : M World unit :=
  classifier <- constructor
                  {| Config.mosaiaApiKey := Env.MOSAIA_API_KEY env;
                     Config.mosaiaAgentId := Env.MOSAIA_AGENT_ID env;
                     Config.openRouterApiKey := Env.OPENAI_API_KEY env |} ;;
  console Log [ArgStr (lit "MOSAIA_API_KEY:");
               ArgStr (loaded_or_missing (Env.MOSAIA_API_KEY env))] ;;
  console Log [ArgStr (lit "MOSAIA_AGENT_ID:");
               ArgStr (loaded_or_missing (Env.MOSAIA_AGENT_ID env))] ;;
  console Log [ArgStr (lit "OPENROUTER_API_KEY:");
               ArgStr (loaded_or_missing (Env.OPENAI_API_KEY env))] ;;
  easyClassification <- classifyIssue completions_create classifier
                          easyTitle easyDescription easyLanguage
                          (Some easyLabels) ;;
  console Log [ArgStr (lit "Easy issue classification:");
               ArgVal easyClassification] ;;
  mediumClassification <- classifyIssue completions_create classifier
                            mediumTitle mediumDescription mediumLanguage
                            (Some mediumLabels) ;;
  console Log [ArgStr (lit "Medium issue classification:");
               ArgVal mediumClassification] ;;
  difficultClassification <- classifyIssue completions_create classifier
                               difficultTitle difficultDescription
                               difficultLanguage (Some difficultLabels) ;;
  console Log [ArgStr (lit "Difficult issue classification:");
               ArgVal difficultClassification] ;;
  ret tt.

End Main.

(** ** What a run writes *)

(** The events of one attempt: the call, and the raw text when the response
    has one. *)
Definition attempt_events (c : client) (req : request) (tag : jsstring)
    (o : outcome) : list event :=
  EvCreate c req ::
  match o with
  | Fulfilled res =>
      match first_choice_content res with
      | inr text => [EvConsole Log [ArgStr tag; ArgVal text]]
      | inl _ => []
      end
  | Rejected _ => []
  end.

(** The events of one call of classifyIssue, from the way its provider
    calls end ([fallback] is looked at only when the primary attempt
    fails). *)
Definition run_events (this : IssueClassifier) (prompt : jsstring)
    (primary fallback : outcome) : list event :=
  attempt_events (mosaiaClient this)
    (completion_request (mosaiaAgentId this) prompt)
    (lit "[Mosaia] Raw response:") primary
  ++ match attempt_value primary with
     | inr _ => []
     | inl err =>
         primary_failed err
         :: attempt_events (fallbackClient this)
              (completion_request (Some fallback_model) prompt)
              (lit "[OpenRouter] Raw response:") fallback
         ++ match attempt_value fallback with
            | inr _ => []
            | inl fallbackErr => [fallback_failed fallbackErr]
            end
     end.

(** A line of [main] that reports a variable as missing. *)
Definition reports_missing (e : event) : bool :=
  match e with
  | EvConsole Log [ArgStr _; ArgStr status] => str_eqb status (lit "missing")
  | _ => false
  end.

Definition is_new_client (e : event) : bool :=
  match e with EvNewClient _ => true | _ => false end.

Definition is_warn (e : event) : bool :=
  match e with EvConsole Warn _ => true | _ => false end.

Definition is_error (e : event) : bool :=
  match e with EvConsole Error _ => true | _ => false end.

(** The two endpoints. *)
Definition mosaia_url : jsstring := lit "https://api.mosaia.ai/v1/agent".
Definition openrouter_url : jsstring := lit "https://openrouter.ai/api/v1".

(** The provider calls of a trace that go to one endpoint. *)
Definition calls_to (url : jsstring) (tr : list event) : list event :=
  filter (fun e => match e with
                   | EvCreate c _ => str_eqb (baseURL c) url
                   | _ => false
                   end) tr.

(** A line in which [main] prints a classification. *)
Definition is_classification_line (e : event) : bool :=
  match e with
  | EvConsole Log [ArgStr label; ArgVal _] =>
      includes label (lit "classification:")
  | _ => false
  end.

(** What classifyIssue returns, from the way its provider calls end. *)
Definition run_value (primary fallback : outcome) : value :=
  match attempt_value primary with
  | inr v => v
  | inl _ =>
      match attempt_value fallback with
      | inr v => v
      | inl _ => VNull
      end
  end.

(** The classifier that [main] builds. *)
Definition main_classifier (env : Env.t) : IssueClassifier :=
  {| mosaiaClient := {| apiKey := Env.MOSAIA_API_KEY env; baseURL := mosaia_url |};
     fallbackClient := {| apiKey := Env.OPENAI_API_KEY env; baseURL := openrouter_url |};
     mosaiaAgentId := Env.MOSAIA_AGENT_ID env |}.

Definition easyPrompt : jsstring :=
  buildPrompt easyTitle easyDescription easyLanguage (Some easyLabels).

Definition mediumPrompt : jsstring :=
  buildPrompt mediumTitle mediumDescription mediumLanguage (Some mediumLabels).

Definition difficultPrompt : jsstring :=
  buildPrompt difficultTitle difficultDescription difficultLanguage
    (Some difficultLabels).

(** The events of a whole run of [main] that gets past the constructor,
    from the way the provider calls of its three classifications end. *)
Definition main_events (env : Env.t)
    (easy easy' medium medium' difficult difficult' : outcome) : list event :=
  [EvNewClient (mosaiaClient (main_classifier env));
   EvNewClient (fallbackClient (main_classifier env));
   EvConsole Log [ArgStr (lit "MOSAIA_API_KEY:");
                  ArgStr (loaded_or_missing (Env.MOSAIA_API_KEY env))];
   EvConsole Log [ArgStr (lit "MOSAIA_AGENT_ID:");
                  ArgStr (loaded_or_missing (Env.MOSAIA_AGENT_ID env))];
   EvConsole Log [ArgStr (lit "OPENROUTER_API_KEY:");
                  ArgStr (loaded_or_missing (Env.OPENAI_API_KEY env))]]
  ++ run_events (main_classifier env) easyPrompt easy easy'
  ++ [EvConsole Log [ArgStr (lit "Easy issue classification:");
                     ArgVal (run_value easy easy')]]
  ++ run_events (main_classifier env) mediumPrompt medium medium'
  ++ [EvConsole Log [ArgStr (lit "Medium issue classification:");
                     ArgVal (run_value medium medium')]]
  ++ run_events (main_classifier env) difficultPrompt difficult difficult'
  ++ [EvConsole Log [ArgStr (lit "Difficult issue classification:");
                     ArgVal (run_value difficult difficult')]].

Definition sample_env : Env.t :=
  {| Env.MOSAIA_API_KEY := Some (lit "mosaia-key");
     Env.MOSAIA_AGENT_ID := Some (lit "6861a37adc8f3af29840e926");
     Env.OPENAI_API_KEY := Some (lit "openrouter-key") |}.

(** * Properties *)

(** ** Strings *)

Lemma cu_eqb_eq (a b : cu) : cu_eqb a b = true <-> a = b.
Proof. unfold cu_eqb. apply N.eqb_eq. Qed.

Lemma cu_eqb_sym (a b : cu) : cu_eqb a b = cu_eqb b a.
Proof. unfold cu_eqb. apply N.eqb_sym. Qed.

Lemma keyword_app (w s rest : jsstring) :
  keyword w s = Some rest -> s = w ++ rest.
Proof.
  revert s. induction w as [|a w IH]; intros s H; simpl in H.
  - now inversion H.
  - destruct s as [|b s]; [discriminate|].
    destruct (cu_eqb a b) eqn:E; [|discriminate].
    apply cu_eqb_eq in E. subst b. simpl. f_equal. now apply IH.
Qed.

Lemma keyword_prefix (w rest : jsstring) : keyword w (w ++ rest) = Some rest.
Proof.
  induction w as [|a w IH]; simpl; [reflexivity|].
  unfold cu_eqb. now rewrite N.eqb_refl.
Qed.

(** ** The matcher on the two patterns of extractJSON *)

Lemma matcher_RLit (w s : jsstring) (k : jsstring -> option jsstring) :
  matcher (RLit w) s k =
  match keyword w s with
  | Some rest => k rest
  | None => None
  end.
Proof.
  revert s. induction w as [|a w IH]; intros s; simpl; [reflexivity|].
  destruct s as [|b s]; [reflexivity|].
  rewrite (cu_eqb_sym b a). destruct (cu_eqb a b); [apply IH | reflexivity].
Qed.

Lemma match_here_split (r : regex) (m rest : jsstring) :
  matcher r (m ++ rest) Some = Some rest ->
  match_here r (m ++ rest) = Some (m, rest).
Proof.
  intros H. unfold match_here. rewrite H.
  rewrite length_app, Nat.add_sub, firstn_app, Nat.sub_diag, firstn_all.
  simpl. now rewrite app_nil_r.
Qed.

(** At any position the fence pattern takes the tagged marker when it is
    there, else the bare marker, else nothing. *)
Lemma match_here_fence (s : jsstring) :
  match_here fence_re s =
  match keyword (lit "```json") s with
  | Some rest => Some (lit "```json", rest)
  | None =>
      match keyword (lit "```") s with
      | Some rest => Some (lit "```", rest)
      | None => None
      end
  end.
Proof.
  destruct (keyword (lit "```json") s) as [rest|] eqn:E1.
  - pose proof (keyword_app _ _ E1) as ->.
    apply match_here_split. unfold fence_re.
    cbn [matcher]. rewrite matcher_RLit, keyword_prefix. reflexivity.
  - destruct (keyword (lit "```") s) as [rest|] eqn:E2.
    + pose proof (keyword_app _ _ E2) as Hs. rewrite Hs in E1 |- *.
      apply match_here_split. unfold fence_re.
      cbn [matcher]. rewrite !matcher_RLit, E1, keyword_prefix. reflexivity.
    + unfold match_here, fence_re. cbn [matcher].
      rewrite !matcher_RLit, E1, E2. reflexivity.
Qed.

Lemma replace_from_skip (r : regex) (by_ : jsstring) (n : nat) (s : jsstring) :
  n <= length s ->
  replace_from r by_ n s = replace_from r by_ 0 (skipn n s).
Proof.
  revert s. induction n as [|n IH]; intros s H; [reflexivity|].
  destruct s as [|c s]; simpl in H; [lia|].
  simpl. apply IH. lia.
Qed.

(** The global replace by the empty string is the left-to-right removal of
    the markers. *)
Lemma replace_fence_strip (fuel : nat) (s : jsstring) :
  length s < fuel -> replace_from fence_re [] 0 s = strip_fuel fuel s.
Proof.
  revert s. induction fuel as [|fuel IH]; intros s H; [lia|].
  destruct s as [|c s].
  - reflexivity.
  - cbn [replace_from strip_fuel]. rewrite match_here_fence.
    destruct (keyword (lit "```json") (c :: s)) as [rest|] eqn:E1.
    + pose proof (keyword_app _ _ E1) as Hs.
      injection Hs as -> ->.
      cbn [length lit map list_ascii_of_string app].
      rewrite replace_from_skip by (simpl; lia).
      cbn [skipn app]. cbn [app length] in H. apply IH. lia.
    + destruct (keyword (lit "```") (c :: s)) as [rest|] eqn:E2.
      * pose proof (keyword_app _ _ E2) as Hs.
        injection Hs as -> ->.
        cbn [length lit map list_ascii_of_string app].
        rewrite replace_from_skip by (simpl; lia).
        cbn [skipn app]. cbn [app length] in H. apply IH. lia.
      * f_equal. apply IH. simpl in H. lia.
Qed.

Lemma replace_all_fence (s : jsstring) :
  replace_all s fence_re [] = strip_fence_markers s.
Proof. apply replace_fence_strip. lia. Qed.

Lemma any_code_unit (c : cu) : is_space c || negb (is_space c) = true.
Proof. apply orb_negb_r. Qed.

Lemma upto_last_close_prefix (s m : jsstring) :
  upto_last_close s = Some m -> s = m ++ skipn (length m) s.
Proof.
  revert m. induction s as [|c s IH]; intros m H; simpl in H; [discriminate|].
  destruct (upto_last_close s) as [m'|].
  - injection H as <-. simpl. f_equal. now apply IH.
  - destruct (c =? rbrace)%N; [|discriminate]. now injection H as <-.
Qed.

(** The greedy star over any code unit backtracks from the end of the text:
    it stops before the last closing brace. *)
Lemma repeat_any_close (fuel : nat) (s : jsstring) :
  length s <= fuel ->
  repeat_matcher
    (matcher (RClass (fun c => is_space c || negb (is_space c))))
    close_k fuel s =
  match upto_last_close s with
  | Some m => Some (skipn (length m) s)
  | None => None
  end.
Proof.
  revert s. induction fuel as [|fuel IH]; intros s H.
  - destruct s; [reflexivity | simpl in H; lia].
  - destruct s as [|c s]; [reflexivity|].
    cbn [repeat_matcher matcher]. rewrite any_code_unit.
    replace (length s <? length (c :: s)) with true
      by (symmetry; apply Nat.ltb_lt; simpl; lia).
    rewrite IH by (simpl in H; lia).
    cbn [upto_last_close].
    destruct (upto_last_close s) as [m|]; [reflexivity|].
    unfold close_k, rbrace, cu_eqb. cbn [matcher]. unfold cu_eqb.
    destruct (c =? 125)%N; reflexivity.
Qed.

Lemma matcher_brace (s : jsstring) :
  matcher brace_re s Some =
  match s with
  | c :: s' =>
      if (c =? lbrace)%N then
        match upto_last_close s' with
        | Some m => Some (skipn (length m) s')
        | None => None
        end
      else None
  | [] => None
  end.
Proof.
  destruct s as [|c s]; [reflexivity|].
  unfold brace_re. cbn [matcher]. unfold cu_eqb, lbrace.
  destruct (c =? 123)%N; [|reflexivity].
  change (fun s' : jsstring => matcher (RChar 125%N) s' Some) with close_k.
  now rewrite repeat_any_close by lia.
Qed.

Lemma match_here_brace (s : jsstring) :
  match_here brace_re s =
  match s with
  | c :: s' =>
      if (c =? lbrace)%N then
        match upto_last_close s' with
        | Some m => Some (c :: m, skipn (length m) s')
        | None => None
        end
      else None
  | [] => None
  end.
Proof.
  destruct s as [|c s]; [reflexivity|].
  destruct (c =? lbrace)%N eqn:Ec.
  - destruct (upto_last_close s) as [m|] eqn:E.
    + pose proof (upto_last_close_prefix _ E) as Hs.
      rewrite Hs at 1. apply (match_here_split brace_re (c :: m)).
      cbn [app]. rewrite <- Hs, matcher_brace, Ec, E. reflexivity.
    + unfold match_here. now rewrite matcher_brace, Ec, E.
  - unfold match_here. now rewrite matcher_brace, Ec.
Qed.

Lemma exec_brace_none (s : jsstring) :
  upto_last_close s = None -> exec brace_re s = None.
Proof.
  induction s as [|c s IH]; intros H; [reflexivity|].
  simpl in H. destruct (upto_last_close s) eqn:E; [discriminate|].
  cbn [exec]. rewrite match_here_brace, E, IH by reflexivity.
  destruct (c =? lbrace)%N; reflexivity.
Qed.

(** The match of the brace pattern is the span from the first opening
    brace to the last closing brace. *)
Lemma str_match_brace (s : jsstring) : str_match s brace_re = brace_span s.
Proof.
  unfold str_match, brace_span.
  induction s as [|c s IH]; [reflexivity|].
  cbn [exec from_first_open]. rewrite match_here_brace.
  destruct (c =? lbrace)%N.
  - destruct (upto_last_close s) as [m|] eqn:E; [reflexivity|].
    now rewrite exec_brace_none.
  - destruct (exec brace_re s) as [[pre m]|]; exact IH.
Qed.

(** ** The span, said without a program *)

Lemma upto_last_close_none (s : jsstring) :
  upto_last_close s = None <-> ~ In rbrace s.
Proof.
  induction s as [|c s IH]; simpl.
  - split; [intros _ [] | reflexivity].
  - destruct (upto_last_close s) as [m|].
    + split; [discriminate|]. intros H. exfalso.
      destruct IH as [_ IH]. assert (Some m = None) by (apply IH; tauto).
      discriminate.
    + destruct (N.eqb_spec c rbrace) as [->|Hc].
      * split; [discriminate | intros H; exfalso; apply H; now left].
      * split; [|reflexivity]. intros _ [H|H]; [now apply Hc|].
        destruct IH as [IH _]. now apply IH.
Qed.

Lemma upto_last_close_app (mid post : jsstring) :
  ~ In rbrace post ->
  upto_last_close (mid ++ rbrace :: post) = Some (mid ++ [rbrace]).
Proof.
  intros H. induction mid as [|c mid IH]; simpl.
  - apply upto_last_close_none in H. now rewrite H.
  - now rewrite IH.
Qed.

Lemma upto_last_close_inv (s m : jsstring) :
  upto_last_close s = Some m ->
  exists mid post, m = mid ++ [rbrace] /\ s = m ++ post /\ ~ In rbrace post.
Proof.
  revert m. induction s as [|c s IH]; intros m H; simpl in H; [discriminate|].
  destruct (upto_last_close s) as [m'|] eqn:E.
  - injection H as <-. destruct (IH _ eq_refl) as (mid & post & -> & -> & Hp).
    exists (c :: mid), post. repeat split; auto.
  - destruct (N.eqb_spec c rbrace) as [->|Hc]; [|discriminate].
    injection H as <-. exists [], s. repeat split.
    now apply upto_last_close_none.
Qed.

Lemma from_first_open_app (pre t : jsstring) :
  ~ In lbrace pre ->
  from_first_open (pre ++ lbrace :: t) = Some (lbrace :: t).
Proof.
  intros H. induction pre as [|c pre IH]; simpl; [reflexivity|].
  destruct (N.eqb_spec c lbrace) as [->|Hc].
  - exfalso. apply H. now left.
  - apply IH. intros Hin. apply H. now right.
Qed.

Lemma from_first_open_inv (s t : jsstring) :
  from_first_open s = Some t ->
  exists pre t', t = lbrace :: t' /\ s = pre ++ t /\ ~ In lbrace pre.
Proof.
  induction s as [|c s IH]; intros H; simpl in H; [discriminate|].
  destruct (N.eqb_spec c lbrace) as [->|Hc].
  - injection H as <-. exists [], s. repeat split. intros [].
  - destruct (IH H) as (pre & t' & -> & -> & Hp).
    exists (c :: pre), t'. repeat split.
    intros [Hin|Hin]; [now apply Hc | now apply Hp].
Qed.

(** [brace_span s = Some m] says: [m] runs from the first opening brace of
    [s] to the last closing brace of [s]. *)
Lemma brace_span_some (s m : jsstring) :
  brace_span s = Some m <->
  exists pre mid post,
    s = pre ++ m ++ post /\ m = lbrace :: mid ++ [rbrace]
    /\ ~ In lbrace pre /\ ~ In rbrace post.
Proof.
  unfold brace_span. split.
  - destruct (from_first_open s) as [[|c t]|] eqn:E1; try discriminate.
    destruct (upto_last_close t) as [m'|] eqn:E2; [|discriminate].
    intros H. injection H as <-.
    destruct (from_first_open_inv _ E1) as (pre & t' & Ht & -> & Hp).
    injection Ht as -> <-.
    destruct (upto_last_close_inv _ E2) as (mid & post & -> & -> & Hq).
    exists pre, mid, post. repeat split; auto.
  - intros (pre & mid & post & -> & -> & Hp & Hq).
    cbn [app]. rewrite from_first_open_app by assumption.
    rewrite <- app_assoc. cbn [app].
    now rewrite upto_last_close_app.
Qed.

(** [brace_span s = None] says: no opening brace of [s] has a closing brace
    after it. *)
Lemma brace_span_none (s : jsstring) :
  brace_span s = None <->
  ~ exists pre mid post, s = pre ++ lbrace :: mid ++ rbrace :: post.
Proof.
  split.
  - intros H (pre & mid & post & ->). revert H.
    induction pre as [|c pre IH]; unfold brace_span; cbn [app from_first_open].
    + rewrite N.eqb_refl.
      destruct (upto_last_close (mid ++ rbrace :: post)) eqn:E; [discriminate|].
      apply upto_last_close_none in E. exfalso. apply E.
      apply in_or_app. right. now left.
    + destruct (N.eqb_spec c lbrace) as [->|Hc]; [|exact IH].
      destruct (upto_last_close (pre ++ lbrace :: mid ++ rbrace :: post)) eqn:E;
        [discriminate|].
      apply upto_last_close_none in E. exfalso. apply E.
      apply in_or_app. right. right. apply in_or_app. right. now left.
  - intros H. destruct (brace_span s) as [m|] eqn:E; [|reflexivity].
    exfalso. apply H. apply brace_span_some in E.
    destruct E as (pre & mid & post & -> & -> & _).
    exists pre, mid, post. cbn [app]. now rewrite <- app_assoc.
Qed.

(** ** JSON.parse: every step consumes input, so the fuel is never spent *)

Lemma skip_ws_length (s : jsstring) : length (skip_ws s) <= length s.
Proof.
  induction s as [|c s IH]; simpl; [lia|].
  destruct (is_json_ws c); simpl; lia.
Qed.

Lemma parse_chars_length (s acc str r : jsstring) :
  parse_chars s acc = Some (str, r) -> length r < length s.
Proof.
  remember (length s) as n eqn:Hn.
  assert (Hle : length s <= n) by lia. clear Hn.
  revert s acc Hle. induction n as [|n IH]; intros s acc Hle H.
  - destruct s; [discriminate | simpl in Hle; lia].
  - destruct s as [|c s]; [discriminate|]. simpl in Hle.
    cbn [parse_chars] in H.
    destruct (c =? 34)%N.
    { injection H as _ <-. simpl. lia. }
    destruct (c =? 92)%N.
    { destruct s as [|e s1]; [discriminate|].
      destruct (e =? 117)%N.
      - destruct s1 as [|h1 [|h2 [|h3 [|h4 s2]]]]; try discriminate.
        destruct (hex4 h1 h2 h3 h4); [|discriminate].
        apply IH in H; simpl in *; lia.
      - destruct (simple_escape e); [|discriminate].
        apply IH in H; simpl in *; lia. }
    destruct (c <? 32)%N; [discriminate|].
    apply IH in H; simpl in *; lia.
Qed.

Lemma span_digits_length (s d r : jsstring) :
  span_digits s = (d, r) -> length r <= length s.
Proof.
  revert d r. induction s as [|c s IH]; intros d r H; simpl in H.
  - injection H as _ <-. simpl. lia.
  - destruct (is_digit c).
    + destruct (span_digits s) as [d' r'] eqn:E. injection H as _ <-.
      specialize (IH _ _ eq_refl). simpl. lia.
    + injection H as _ <-. lia.
Qed.

Lemma digits1_length (s d r : jsstring) :
  digits1 s = Some (d, r) -> length r <= length s.
Proof.
  unfold digits1. destruct (span_digits s) as [d' r'] eqn:E.
  apply span_digits_length in E.
  destruct d'; [discriminate|]. intros H. injection H as _ <-. exact E.
Qed.

Lemma parse_int_length (s i r : jsstring) :
  parse_int s = Some (i, r) -> length r < length s.
Proof.
  unfold parse_int. destruct s as [|c s]; [discriminate|].
  destruct (c =? 48)%N.
  - intros H. injection H as _ <-. simpl. lia.
  - destruct (is_digit c); [|discriminate].
    destruct (span_digits s) as [d r'] eqn:E. apply span_digits_length in E.
    intros H. injection H as _ <-. simpl. lia.
Qed.

Lemma parse_frac_length (s f r : jsstring) :
  parse_frac s = Some (f, r) -> length r <= length s.
Proof.
  unfold parse_frac. destruct s as [|c s].
  - intros H. injection H as _ <-. lia.
  - destruct (c =? 46)%N.
    + destruct (digits1 s) as [[d r']|] eqn:E; [|discriminate].
      apply digits1_length in E. intros H. injection H as _ <-. simpl. lia.
    + intros H. injection H as _ <-. lia.
Qed.

Lemma parse_exp_length (s e r : jsstring) :
  parse_exp s = Some (e, r) -> length r <= length s.
Proof.
  unfold parse_exp. destruct s as [|c s].
  - intros H. injection H as _ <-. lia.
  - destruct ((c =? 101) || (c =? 69))%N.
    + destruct s as [|g s']; [discriminate|].
      destruct ((g =? 43) || (g =? 45))%N.
      * destruct (digits1 s') as [[d r']|] eqn:E; [|discriminate].
        apply digits1_length in E. intros H. injection H as _ <-.
        simpl. lia.
      * destruct (digits1 (g :: s')) as [[d r']|] eqn:E; [|discriminate].
        apply digits1_length in E. intros H. injection H as _ <-.
        simpl in *. lia.
    + intros H. injection H as _ <-. lia.
Qed.

Lemma parse_number_length (s lexeme r : jsstring) :
  parse_number s = Some (lexeme, r) -> length r < length s.
Proof.
  unfold parse_number.
  set (p := match s with
            | [] => ([], [])
            | c :: s' => if (c =? 45)%N then ([c], s') else ([], s)
            end).
  assert (Hp : length (snd p) <= length s).
  { subst p. destruct s as [|c s']; simpl; [lia|].
    destruct (c =? 45)%N; simpl; lia. }
  destruct p as [sign s0]. simpl in Hp.
  destruct (parse_int s0) as [[i s1]|] eqn:E1; [|discriminate].
  destruct (parse_frac s1) as [[f s2]|] eqn:E2; [|discriminate].
  destruct (parse_exp s2) as [[e s3]|] eqn:E3; [|discriminate].
  apply parse_int_length in E1. apply parse_frac_length in E2.
  apply parse_exp_length in E3.
  intros H. injection H as _ <-. lia.
Qed.

Lemma keyword_length (w s r : jsstring) :
  keyword w s = Some r -> length s = length w + length r.
Proof. intros H. apply keyword_app in H. subst s. apply length_app. Qed.

(** Collects what each lexing step in the context has consumed. *)
Ltac consumed :=
  repeat match goal with
  | H : skip_ws ?a = ?b |- _ =>
      let L := fresh "L" in
      pose proof (skip_ws_length a) as L; rewrite H in L; revert H
  | H : parse_chars ?a ?acc = Some (?str, ?b) |- _ =>
      apply parse_chars_length in H
  | H : parse_number ?a = Some (?lx, ?b) |- _ =>
      apply parse_number_length in H
  | H : keyword ?w ?a = Some ?b |- _ =>
      apply keyword_length in H
  end; intros; cbn [length lit map list_ascii_of_string] in *.

Lemma parse_value_steps (n : nat) :
  (forall s,
     consumes (parse_value n s) s
     /\ (2 * length s < n -> parse_value n s <> PFuel))
  /\ (forall s acc,
        consumes (parse_elements n s acc) s
        /\ (2 * length s + 1 < n -> parse_elements n s acc <> PFuel))
  /\ (forall s acc,
        consumes (parse_members n s acc) s
        /\ (2 * length s < n -> parse_members n s acc <> PFuel)).
Proof.
  induction n as [|n (IHv & IHe & IHm)].
  { repeat split; try discriminate; simpl; lia. }
  split; [|split].
  - intros s. cbn [parse_value].
    destruct (skip_ws s) as [|c r0] eqn:Ews.
    { split; [discriminate | discriminate]. }
    destruct (c =? 123)%N.
    { destruct (skip_ws r0) as [|c' r'] eqn:Ews'.
      { split; discriminate. }
      destruct (c' =? 125)%N.
      - split; [|discriminate]. intros a r H. injection H as _ <-.
        consumed. lia.
      - destruct (IHm (c' :: r') []) as [Hc Hf]. split.
        + intros a r H. apply Hc in H. consumed. lia.
        + intros Hn. apply Hf. consumed. lia. }
    destruct (c =? 91)%N.
    { destruct (skip_ws r0) as [|c' r'] eqn:Ews'.
      { split; discriminate. }
      destruct (c' =? 93)%N.
      - split; [|discriminate]. intros a r H. injection H as _ <-.
        consumed. lia.
      - destruct (IHe (c' :: r') []) as [Hc Hf]. split.
        + intros a r H. apply Hc in H. consumed. lia.
        + intros Hn. apply Hf. consumed. lia. }
    destruct (c =? 34)%N.
    { destruct (parse_chars r0 []) as [[str r']|] eqn:Es;
        (split; [|discriminate]); [|discriminate].
      intros a r H. injection H as _ <-. consumed. lia. }
    destruct (keyword (lit "true") (c :: r0)) as [r'|] eqn:Kt.
    { split; [|discriminate]. intros a r H. injection H as _ <-.
      consumed. lia. }
    destruct (keyword (lit "false") (c :: r0)) as [r'|] eqn:Kf.
    { split; [|discriminate]. intros a r H. injection H as _ <-.
      consumed. lia. }
    destruct (keyword (lit "null") (c :: r0)) as [r'|] eqn:Kn.
    { split; [|discriminate]. intros a r H. injection H as _ <-.
      consumed. lia. }
    destruct (parse_number (c :: r0)) as [[lx r']|] eqn:En;
      (split; [|discriminate]); [|discriminate].
    intros a r H. injection H as _ <-. consumed. lia.
  - intros s acc. cbn [parse_elements].
    destruct (IHv s) as [Hc Hf].
    destruct (parse_value n s) as [[v r0]| |] eqn:Ev.
    + specialize (Hc _ _ eq_refl).
      destruct (skip_ws r0) as [|c r'] eqn:Ews.
      { split; discriminate. }
      destruct (c =? 44)%N.
      * destruct (IHe r' (v :: acc)) as [Hc' Hf']. split.
        -- intros a r H. apply Hc' in H. consumed. lia.
        -- intros Hn. apply Hf'. consumed. lia.
      * destruct (c =? 93)%N; (split; [|discriminate]); [|discriminate].
        intros a r H. injection H as _ <-. consumed. lia.
    + split; discriminate.
    + split; [discriminate|]. intros Hn _. apply Hf; [lia | reflexivity].
  - intros s acc. cbn [parse_members].
    destruct (skip_ws s) as [|q r0] eqn:Ews.
    { split; discriminate. }
    destruct (q =? 34)%N; [|split; discriminate].
    destruct (parse_chars r0 []) as [[key r1]|] eqn:Es; [|split; discriminate].
    destruct (skip_ws r1) as [|c1 r2] eqn:Ews1; [split; discriminate|].
    destruct (c1 =? 58)%N; [|split; discriminate].
    destruct (IHv r2) as [Hc Hf].
    destruct (parse_value n r2) as [[v r3]| |] eqn:Ev.
    + specialize (Hc _ _ eq_refl).
      destruct (skip_ws r3) as [|c3 r4] eqn:Ews3; [split; discriminate|].
      destruct (c3 =? 44)%N.
      * destruct (IHm r4 (set_prop key v acc)) as [Hc' Hf']. split.
        -- intros a r H. apply Hc' in H. consumed. lia.
        -- intros Hn. apply Hf'. consumed. lia.
      * destruct (c3 =? 125)%N; (split; [|discriminate]); [|discriminate].
        intros a r H. injection H as _ <-. consumed. lia.
    + split; discriminate.
    + split; [discriminate|]. intros Hn _. apply Hf; [|reflexivity].
      consumed. lia.
Qed.

(** With [parse_fuel] the parser never stops for lack of fuel: a [None] of
    [JSON_parse] is always a syntax error. *)
Lemma parse_value_fuel (s : jsstring) :
  parse_value (parse_fuel s) s <> PFuel.
Proof.
  destruct (parse_value_steps (parse_fuel s)) as [Hv _].
  apply Hv. unfold parse_fuel. lia.
Qed.

(** ** extractJSON *)

(** The text that [extractJSON] searches. *)
Lemma extractJSON_unfold (text : jsstring) :
  extractJSON (VStr text) =
  match brace_span (trim (strip_fence_markers text)) with
  | None => inl (JsError no_json_message)
  | Some m =>
      match JSON_parse m with
      | Some v => inr v
      | None => inl JsSyntaxError
      end
  end.
Proof.
  unfold extractJSON. now rewrite replace_all_fence, str_match_brace.
Qed.

(** On a string, extractJSON throws nothing but its own Error and the
    SyntaxError of JSON.parse. *)
Lemma extractJSON_errors (text : jsstring) (e : exn) :
  extractJSON (VStr text) = inl e ->
  e = JsError no_json_message \/ e = JsSyntaxError.
Proof.
  rewrite extractJSON_unfold.
  destruct (brace_span (trim (strip_fence_markers text))) as [m|].
  - destruct (JSON_parse m); [discriminate|].
    intros H. injection H as <-. now right.
  - intros H. injection H as <-. now left.
Qed.

(** The matcher at work: the tagged marker wins over the bare one, the star
    is greedy, and a replace goes on after each match. *)
Example replace_all_fences :
  replace_all (lit "a````json``b```json```c`") fence_re [] = lit "a`json``bc`".
Proof. reflexivity. Qed.

Example str_match_greedy :
  str_match (lit "ab{c}d}e{") brace_re = Some (lit "{c}d}").
Proof. reflexivity. Qed.

Example str_match_close_before_open : str_match (lit "} {") brace_re = None.
Proof. reflexivity. Qed.

Example replace_all_empty_matches :
  replace_all (lit "aXbXXc") (RStar (RChar 88%N)) (lit "-") = lit "-a--b--c-".
Proof. reflexivity. Qed.

Example is_space_samples :
  map is_space [8%N; 11%N; 14%N; 8200%N; 8203%N; 12288%N]
  = [false; true; false; true; false; true].
Proof. reflexivity. Qed.

Example JSON_parse_nested :
  JSON_parse (lit "  {" ++ dq ++ lit "a" ++ dq ++ lit ": [1, -2.5e+3, true, null, {}, []], "
              ++ dq ++ lit "a" ++ dq ++ lit ":" ++ dq ++ lit "\u0041\n" ++ dq ++ lit "} ")
  = Some (VObj [(lit "a", VStr [65%N; 10%N])]).
Proof. reflexivity. Qed.

Example JSON_parse_rejects :
  map JSON_parse [lit "{not valid json}"; lit "01"; lit "[1,]"; lit "1."; lit "{}{}"; []]
  = [None; None; None; None; None; None].
Proof. reflexivity. Qed.

Example trim_both_ends :
  trim ([9; 160; 32]%N ++ lit "a b" ++ [10; 8232; 65279]%N) = lit "a b".
Proof. reflexivity. Qed.

(** C4: extractJSON removes the fence markers, trims, and parses the
    substring of the cleaned text from its first opening brace to its last
    closing brace, whatever lies between them; the fenced block and the
    sentence of the specification give their objects. *)
Theorem extractJSON_first_to_last_brace :
  (forall text pre mid post,
     trim (strip_fence_markers text) = pre ++ [lbrace] ++ mid ++ [rbrace] ++ post ->
     ~ In lbrace pre -> ~ In rbrace post ->
     extractJSON (VStr text) =
     match JSON_parse ([lbrace] ++ mid ++ [rbrace]) with
     | Some v => inr v
     | None => inl JsSyntaxError
     end)
  /\ (forall text, replace_all text fence_re [] = strip_fence_markers text)
  /\ extractJSON (VStr fenced_easy) = inr (difficulty_object "easy")
  /\ extractJSON (VStr prose_medium) = inr (difficulty_object "medium").
Proof.
  split; [|split; [|split]].
  - intros text pre mid post Hc Hp Hq.
    rewrite extractJSON_unfold.
    assert (E : brace_span (trim (strip_fence_markers text))
                = Some ([lbrace] ++ mid ++ [rbrace])).
    { apply brace_span_some. exists pre, mid, post.
      repeat split; auto. rewrite Hc. cbn [app].
      now rewrite <- app_assoc. }
    now rewrite E.
  - exact replace_all_fence.
  - vm_compute. reflexivity.
  - vm_compute. reflexivity.
Qed.

Lemma extractJSON_first_to_last_brace_witness :
  extractJSON
    (VStr (lit "  ```x } { " ++ difficulty_text "easy" ++ lit " } ok { ```json"))
  = inl JsSyntaxError.
Proof.
  apply (proj1 extractJSON_first_to_last_brace
           (lit "  ```x } { " ++ difficulty_text "easy" ++ lit " } ok { ```json")
           (lit "x } ")
           (lit " " ++ difficulty_text "easy" ++ lit " ")
           (lit " ok {")).
  - vm_compute. reflexivity.
  - vm_compute. intuition discriminate.
  - vm_compute. intuition discriminate.
Defined.

(** C5: on a string, extractJSON fails in two ways only.  It throws the
    Error "No JSON found in model response" exactly when no opening brace
    of the cleaned text has a closing brace after it, and the SyntaxError of
    JSON.parse exactly when the span from the first opening to the last
    closing brace is not JSON. *)
Theorem extractJSON_failure_modes :
  (forall text,
     let cleaned := trim (replace_all text fence_re []) in
     (extractJSON (VStr text) = inl (JsError no_json_message) <->
      ~ exists pre mid post, cleaned = pre ++ lbrace :: mid ++ rbrace :: post)
     /\ (extractJSON (VStr text) = inl JsSyntaxError <->
         exists m, brace_span cleaned = Some m /\ JSON_parse m = None)
     /\ (forall e, extractJSON (VStr text) = inl e ->
         e = JsError no_json_message \/ e = JsSyntaxError))
  /\ JsError no_json_message <> JsSyntaxError
  /\ extractJSON (VStr (lit "no braces here")) = inl (JsError no_json_message)
  /\ extractJSON (VStr (lit "{not valid json}")) = inl JsSyntaxError.
Proof.
  split; [|split; [discriminate | split; vm_compute; reflexivity]].
  intros text cleaned. subst cleaned.
  rewrite extractJSON_unfold, replace_all_fence.
  set (cleaned := trim (strip_fence_markers text)).
  split; [|split].
  - rewrite <- brace_span_none.
    destruct (brace_span cleaned) as [m|].
    + split; [|discriminate]. destruct (JSON_parse m); discriminate.
    + split; reflexivity.
  - destruct (brace_span cleaned) as [m|].
    + split.
      * destruct (JSON_parse m) eqn:E; [discriminate|]. intros _. now exists m.
      * intros (m' & Hm & Hp). injection Hm as <-. now rewrite Hp.
    + split; [discriminate|]. intros (m' & Hm & _). discriminate.
  - intros e H. apply (extractJSON_errors text).
    now rewrite extractJSON_unfold.
Qed.

Lemma extractJSON_failure_modes_witness :
  JsSyntaxError = JsError no_json_message \/ JsSyntaxError = JsSyntaxError.
Proof.
  apply (proj2 (proj2
           (proj1 extractJSON_failure_modes (lit "{not valid json}")))).
  vm_compute. reflexivity.
Defined.

(** What JSON.parse builds from a text that starts with a brace is an
    object. *)
Lemma JSON_parse_object (c : cu) (s : jsstring) (v : value) :
  c = lbrace -> JSON_parse (c :: s) = Some v -> exists props, v = VObj props.
Proof.
  intros -> H. unfold JSON_parse, parse_fuel in H.
  cbn [length Nat.mul Nat.add] in H.
  rewrite Nat.add_succ_r in H. cbn [parse_value skip_ws] in H.
  change (is_json_ws lbrace) with false in H. cbv iota in H.
  change (lbrace =? 123)%N with true in H. cbv iota in H.
  destruct (skip_ws s) as [|c' r'] eqn:Ews; [discriminate H|].
  destruct (c' =? 125)%N.
  - destruct (skip_ws r'); [|discriminate H]. injection H as <-. now exists [].
  - assert (G : forall n t acc a r,
               parse_members n t acc = POk (a, r) -> exists props, a = VObj props).
    { clear. induction n as [|n IH]; intros t acc a r H; [discriminate H|].
      cbn [parse_members] in H.
      destruct (skip_ws t) as [|q r0]; [discriminate H|].
      destruct (q =? 34)%N; [|discriminate H].
      destruct (parse_chars r0 []) as [[key r1]|]; [|discriminate H].
      destruct (skip_ws r1) as [|c1 r2]; [discriminate H|].
      destruct (c1 =? 58)%N; [|discriminate H].
      destruct (parse_value n r2) as [[v r3]| |]; try discriminate H.
      destruct (skip_ws r3) as [|c3 r4]; [discriminate H|].
      destruct (c3 =? 44)%N; [now apply IH in H|].
      destruct (c3 =? 125)%N; [|discriminate H].
      injection H as <- _. eauto. }
    destruct (parse_members _ (c' :: r') []) as [[a r]| |] eqn:E;
      try discriminate H.
    destruct (skip_ws r); [|discriminate H]. injection H as <-.
    eapply G. exact E.
Qed.

(** C8: extractJSON hands back what JSON.parse built from the brace span,
    which is always an object, and looks at none of its members: an empty
    object and an unknown difficulty come back as they are. *)
Theorem extractJSON_no_validation :
  (forall text m v,
     brace_span (trim (replace_all text fence_re [])) = Some m ->
     JSON_parse m = Some v ->
     extractJSON (VStr text) = inr v /\ exists props, v = VObj props)
  /\ extractJSON (VStr (lit "{}")) = inr (VObj [])
  /\ extractJSON (VStr (difficulty_text "impossible"))
     = inr (difficulty_object "impossible").
Proof.
  split; [|split; vm_compute; reflexivity].
  intros text m v Hm Hv. split.
  - rewrite extractJSON_unfold. rewrite replace_all_fence in Hm.
    now rewrite Hm, Hv.
  - apply brace_span_some in Hm. destruct Hm as (_ & mid & _ & _ & -> & _).
    eapply JSON_parse_object; [reflexivity | exact Hv].
Qed.

Lemma extractJSON_no_validation_witness :
  extractJSON (VStr (lit "ok: " ++ json_object1 (lit "level") (lit "9")))
  = inr (VObj [(lit "level", VStr (lit "9"))])
  /\ exists props, VObj [(lit "level", VStr (lit "9"))] = VObj props.
Proof.
  apply (proj1 extractJSON_no_validation
           (lit "ok: " ++ json_object1 (lit "level") (lit "9"))
           (json_object1 (lit "level") (lit "9"))).
  - vm_compute. reflexivity.
  - vm_compute. reflexivity.
Defined.

(** ** The two attempts and their handlers *)

Section Runs.

Variable World : Type.
Variable create : client -> request -> World -> outcome * World.
Variable this : IssueClassifier.
Variable prompt : jsstring.

Local Abbreviation primary_request :=
  (completion_request (mosaiaAgentId this) prompt).
Local Abbreviation fallback_request :=
  (completion_request (Some fallback_model) prompt).

Lemma primary_attempt_run (st : state World) :
  primary_attempt create this prompt st =
  match create (mosaiaClient this) primary_request (world st) with
  | (Rejected e, w) =>
      (inl e, {| world := w;
                 trace := trace st ++ [EvCreate (mosaiaClient this) primary_request] |})
  | (Fulfilled res, w) =>
      match first_choice_content res with
      | inl e =>
          (inl e, {| world := w;
                     trace := trace st ++ [EvCreate (mosaiaClient this) primary_request] |})
      | inr text =>
          (extractJSON text,
           {| world := w;
              trace := (trace st ++ [EvCreate (mosaiaClient this) primary_request])
                       ++ [EvConsole Log [ArgStr (lit "[Mosaia] Raw response:");
                                          ArgVal text]] |})
      end
  end.
Proof.
  unfold primary_attempt, chat_completions_create, console, emit, lift, bind, ret.
  cbn [world trace]. fold primary_request.
  destruct (create (mosaiaClient this) primary_request (world st)) as [[res|e] w];
    [|reflexivity].
  destruct (first_choice_content res) as [e|text]; [reflexivity|].
  cbn [world trace]. destruct (extractJSON text); reflexivity.
Qed.

Lemma fallback_attempt_run (st : state World) :
  fallback_attempt create this prompt st =
  match create (fallbackClient this) fallback_request (world st) with
  | (Rejected e, w) =>
      (inl e, {| world := w;
                 trace := trace st ++ [EvCreate (fallbackClient this) fallback_request] |})
  | (Fulfilled res, w) =>
      match first_choice_content res with
      | inl e =>
          (inl e, {| world := w;
                     trace := trace st ++ [EvCreate (fallbackClient this) fallback_request] |})
      | inr text =>
          (extractJSON text,
           {| world := w;
              trace := (trace st ++ [EvCreate (fallbackClient this) fallback_request])
                       ++ [EvConsole Log [ArgStr (lit "[OpenRouter] Raw response:");
                                          ArgVal text]] |})
      end
  end.
Proof.
  unfold fallback_attempt, chat_completions_create, console, emit, lift, bind, ret.
  cbn [world trace]. fold fallback_request.
  destruct (create (fallbackClient this) fallback_request (world st)) as [[res|e] w];
    [|reflexivity].
  destruct (first_choice_content res) as [e|text]; [reflexivity|].
  cbn [world trace]. destruct (extractJSON text); reflexivity.
Qed.

Lemma calls_app (tr tr' : list event) : calls (tr ++ tr') = calls tr ++ calls tr'.
Proof. apply filter_app. Qed.

Lemma primary_attempt_value (st : state World) :
  fst (primary_attempt create this prompt st) =
  attempt_value (fst (create (mosaiaClient this) primary_request (world st))).
Proof.
  rewrite primary_attempt_run.
  destruct (create _ _ _) as [[res|e] w]; [|reflexivity].
  simpl. destruct (first_choice_content res); reflexivity.
Qed.

Lemma primary_attempt_world (st : state World) :
  world (snd (primary_attempt create this prompt st)) =
  snd (create (mosaiaClient this) primary_request (world st)).
Proof.
  rewrite primary_attempt_run.
  destruct (create _ _ _) as [[res|e] w]; [|reflexivity].
  simpl. destruct (first_choice_content res); reflexivity.
Qed.

Lemma primary_attempt_calls (st : state World) :
  calls (trace (snd (primary_attempt create this prompt st))) =
  calls (trace st) ++ [EvCreate (mosaiaClient this) primary_request].
Proof.
  rewrite primary_attempt_run.
  destruct (create _ _ _) as [[res|e] w]; [|apply calls_app].
  destruct (first_choice_content res); [apply calls_app|].
  cbn [snd trace]. rewrite !calls_app. simpl. now rewrite app_nil_r.
Qed.

Lemma fallback_attempt_value (st : state World) :
  fst (fallback_attempt create this prompt st) =
  attempt_value (fst (create (fallbackClient this) fallback_request (world st))).
Proof.
  rewrite fallback_attempt_run.
  destruct (create _ _ _) as [[res|e] w]; [|reflexivity].
  simpl. destruct (first_choice_content res); reflexivity.
Qed.

Lemma fallback_attempt_calls (st : state World) :
  calls (trace (snd (fallback_attempt create this prompt st))) =
  calls (trace st) ++ [EvCreate (fallbackClient this) fallback_request].
Proof.
  rewrite fallback_attempt_run.
  destruct (create _ _ _) as [[res|e] w]; [|apply calls_app].
  destruct (first_choice_content res); [apply calls_app|].
  cbn [snd trace]. rewrite !calls_app. simpl. now rewrite app_nil_r.
Qed.

(** An attempt only adds events. *)
Lemma fallback_attempt_trace (st : state World) :
  exists evs, trace (snd (fallback_attempt create this prompt st)) = trace st ++ evs.
Proof.
  rewrite fallback_attempt_run.
  destruct (create _ _ _) as [[res|e] w]; [|cbn; eauto].
  destruct (first_choice_content res); cbn; [eauto|].
  rewrite <- app_assoc. eauto.
Qed.

End Runs.

Section Classify.

Variable World : Type.
Variable create : client -> request -> World -> outcome * World.
Variable this : IssueClassifier.
Variables title description language : jsstring.
Variable labels : option (list jsstring).

Local Abbreviation prompt := (buildPrompt title description language labels).

(** The control flow of classifyIssue, one [try] after the other. *)
Lemma classifyIssue_run (st : state World) :
  classifyIssue create this title description language labels st =
  match primary_attempt create this prompt st with
  | (inr v, st1) => (inr v, st1)
  | (inl err, st1) =>
      match fallback_attempt create this prompt (logged st1 (primary_failed err)) with
      | (inr v, st2) => (inr v, st2)
      | (inl fallbackErr, st2) =>
          (inr VNull, logged st2 (fallback_failed fallbackErr))
      end
  end.
Proof.
  unfold classifyIssue, try_catch, bind, ret, console, emit. fold prompt.
  destruct (primary_attempt create this prompt st) as [[err|v] st1];
    [|reflexivity].
  cbn [world trace]. fold (primary_failed err). fold (logged st1 (primary_failed err)).
  destruct (fallback_attempt create this prompt (logged st1 (primary_failed err)))
    as [[fallbackErr|v] st2]; reflexivity.
Qed.

(** The result is a value, fixed by how the two provider calls end. *)
Lemma classifyIssue_value (st : state World) :
  let p := create (mosaiaClient this)
             (completion_request (mosaiaAgentId this) prompt) (world st) in
  let f := create (fallbackClient this)
             (completion_request (Some fallback_model) prompt) (snd p) in
  fst (classifyIssue create this title description language labels st) =
  inr match attempt_value (fst p) with
      | inr v => v
      | inl _ =>
          match attempt_value (fst f) with
          | inr v => v
          | inl _ => VNull
          end
      end.
Proof.
  intros p f. rewrite classifyIssue_run.
  pose proof (primary_attempt_value create this prompt st) as Hv.
  pose proof (primary_attempt_world create this prompt st) as Hw.
  destruct (primary_attempt create this prompt st) as [[err|v] st1];
    cbn [fst snd] in Hv, Hw; fold p in Hv, Hw; rewrite <- Hv; [|reflexivity].
  pose proof (fallback_attempt_value create this prompt
                (logged st1 (primary_failed err))) as Hf.
  cbn [logged world] in Hf. rewrite Hw in Hf. fold f in Hf.
  destruct (fallback_attempt create this prompt (logged st1 (primary_failed err)))
    as [[fallbackErr|v] st2]; cbn [fst] in Hf; rewrite <- Hf; reflexivity.
Qed.

(** The provider calls of one run: the primary call, and the fallback call
    when the primary attempt failed. *)
Lemma classifyIssue_calls (st : state World) :
  calls (trace (snd (classifyIssue create this title description language labels st))) =
  calls (trace st)
  ++ EvCreate (mosaiaClient this) (completion_request (mosaiaAgentId this) prompt)
  :: match fst (primary_attempt create this prompt st) with
     | inr _ => []
     | inl _ => [EvCreate (fallbackClient this)
                   (completion_request (Some fallback_model) prompt)]
     end.
Proof.
  rewrite classifyIssue_run.
  pose proof (primary_attempt_calls create this prompt st) as Hc.
  destruct (primary_attempt create this prompt st) as [[err|v] st1];
    cbn [fst snd] in *; [|exact Hc].
  pose proof (fallback_attempt_calls create this prompt
                (logged st1 (primary_failed err))) as Hf.
  cbn [logged trace] in Hf. rewrite calls_app, Hc in Hf.
  cbn [calls filter primary_failed is_create] in Hf.
  rewrite app_nil_r, <- app_assoc in Hf. cbn [app] in Hf.
  destruct (fallback_attempt create this prompt (logged st1 (primary_failed err)))
    as [[fallbackErr|v] st2]; cbn [snd] in *; [|exact Hf].
  cbn [logged trace]. rewrite calls_app, Hf. cbn. now rewrite app_nil_r.
Qed.

(** The first handler runs on every error of the primary attempt. *)
Lemma classifyIssue_primary_caught (st st1 : state World) (err : exn) :
  primary_attempt create this prompt st = (inl err, st1) ->
  In (primary_failed err)
     (trace (snd (classifyIssue create this title description language labels st))).
Proof.
  intros H. rewrite classifyIssue_run. rewrite H.
  destruct (fallback_attempt_trace create this prompt
              (logged st1 (primary_failed err))) as [evs Hf].
  assert (Hin : In (primary_failed err)
                  (trace (logged st1 (primary_failed err)) ++ evs)).
  { cbn [logged trace]. apply in_or_app. left.
    apply in_or_app. right. now left. }
  rewrite <- Hf in Hin.
  destruct (fallback_attempt create this prompt (logged st1 (primary_failed err)))
    as [[fallbackErr|v] st2]; cbn [snd logged trace] in *; [|exact Hin].
  apply in_or_app. now left.
Qed.

(** The second handler runs on every error of the fallback attempt and
    makes the result null. *)
Lemma classifyIssue_fallback_caught (st st1 st2 : state World) (err fallbackErr : exn) :
  primary_attempt create this prompt st = (inl err, st1) ->
  fallback_attempt create this prompt (logged st1 (primary_failed err))
  = (inl fallbackErr, st2) ->
  fst (classifyIssue create this title description language labels st) = inr VNull
  /\ In (fallback_failed fallbackErr)
       (trace (snd (classifyIssue create this title description language labels st))).
Proof.
  intros H1 H2. rewrite classifyIssue_run. rewrite H1, H2.
  split; [reflexivity|]. cbn [snd logged trace].
  apply in_or_app. right. now left.
Qed.

End Classify.

(** ** classifyIssue *)

(** C1: classifyIssue never throws.  Whatever the providers do it returns a
    value; an error thrown in the primary attempt is caught by the first
    handler and the fallback call follows; when the fallback attempt throws
    too, its error is caught and the result is null. *)
Theorem classifyIssue_never_throws
    (World : Type) (create : client -> request -> World -> outcome * World)
    (this : IssueClassifier) (title description language : jsstring)
    (labels : option (list jsstring)) (st : state World) :
  let prompt := buildPrompt title description language labels in
  let run := classifyIssue create this title description language labels st in
  (exists v, fst run = inr v)
  /\ (forall err st1,
        primary_attempt create this prompt st = (inl err, st1) ->
        In (primary_failed err) (trace (snd run))
        /\ calls (trace (snd run)) =
           calls (trace st)
           ++ [EvCreate (mosaiaClient this)
                 (completion_request (mosaiaAgentId this) prompt);
               EvCreate (fallbackClient this)
                 (completion_request (Some fallback_model) prompt)])
  /\ (forall err st1 fallbackErr st2,
        primary_attempt create this prompt st = (inl err, st1) ->
        fallback_attempt create this prompt (logged st1 (primary_failed err))
        = (inl fallbackErr, st2) ->
        fst run = inr VNull
        /\ In (fallback_failed fallbackErr) (trace (snd run))).
Proof.
  intros prompt run. split; [|split].
  - subst run. rewrite classifyIssue_value. eauto.
  - intros err st1 H. split.
    + eapply classifyIssue_primary_caught. exact H.
    + subst run. rewrite classifyIssue_calls. fold prompt. now rewrite H.
  - intros err st1 fallbackErr st2 H1 H2.
    eapply classifyIssue_fallback_caught; eassumption.
Qed.

Lemma classifyIssue_never_throws_witness :
  fst (classifyIssue (stubbed (Rejected connection_error) (Fulfilled (chat_response (lit "sorry"))))
         sample_classifier (lit "Login button not working on Android")
         (lit "After UI update, login button does not respond.")
         (lit "JavaScript") (Some [lit "bug"]) start)
  = inr VNull
  /\ In (fallback_failed (JsError no_json_message))
       (trace (snd (classifyIssue
                      (stubbed (Rejected connection_error)
                         (Fulfilled (chat_response (lit "sorry"))))
                      sample_classifier (lit "Login button not working on Android")
                      (lit "After UI update, login button does not respond.")
                      (lit "JavaScript") (Some [lit "bug"]) start))).
Proof.
  eapply (proj2 (proj2 (classifyIssue_never_throws
            (stubbed (Rejected connection_error)
               (Fulfilled (chat_response (lit "sorry"))))
            sample_classifier (lit "Login button not working on Android")
            (lit "After UI update, login button does not respond.")
            (lit "JavaScript") (Some [lit "bug"]) start))).
  - vm_compute. reflexivity.
  - vm_compute. reflexivity.
Defined.

(** C2: when the primary attempt throws, whether the provider call was
    rejected or the response text held no JSON or malformed JSON, the run
    makes the primary call and then exactly one fallback call, with the same
    prompt as its only user message, the fixed model and the same
    [max_tokens]; when that call is fulfilled and its text parses, the
    parsed object is the result. *)
Theorem fallback_after_primary_failure
    (World : Type) (create : client -> request -> World -> outcome * World)
    (this : IssueClassifier) (title description language : jsstring)
    (labels : option (list jsstring)) (st : state World) :
  let prompt := buildPrompt title description language labels in
  let run := classifyIssue create this title description language labels st in
  let primary_request :=
    {| model := mosaiaAgentId this;
       messages := [ {| role := lit "user"; content := prompt |} ];
       max_tokens := 500 |} in
  let fallback_request :=
    {| model := Some (lit "mistralai/mistral-small-3.2-24b-instruct:free");
       messages := [ {| role := lit "user"; content := prompt |} ];
       max_tokens := 500 |} in
  let primary_call := create (mosaiaClient this) primary_request (world st) in
  let fallback_call := create (fallbackClient this) fallback_request (snd primary_call) in
  (forall e, fst primary_call = Rejected e ->
             fst (primary_attempt create this prompt st) = inl e)
  /\ (forall res text e,
        fst primary_call = Fulfilled res ->
        first_choice_content res = inr (VStr text) ->
        extractJSON (VStr text) = inl e ->
        (e = JsError no_json_message \/ e = JsSyntaxError)
        /\ fst (primary_attempt create this prompt st) = inl e)
  /\ (forall err,
        fst (primary_attempt create this prompt st) = inl err ->
        calls (trace (snd run)) =
        calls (trace st)
        ++ [EvCreate (mosaiaClient this) primary_request;
            EvCreate (fallbackClient this) fallback_request]
        /\ (forall res text v,
              fst fallback_call = Fulfilled res ->
              first_choice_content res = inr (VStr text) ->
              extractJSON (VStr text) = inr v ->
              fst run = inr v)).
Proof.
  intros prompt run primary_request fallback_request primary_call fallback_call.
  assert (Hp : fst (primary_attempt create this prompt st)
               = attempt_value (fst primary_call))
    by apply primary_attempt_value.
  split; [|split].
  - intros e H. now rewrite Hp, H.
  - intros res text e H Ht He. split.
    + now apply (extractJSON_errors text).
    + rewrite Hp, H. cbn [attempt_value]. now rewrite Ht.
  - intros err H. split.
    + subst run. rewrite classifyIssue_calls. fold prompt. now rewrite H.
    + intros res text v Hf Ht Hv. rewrite Hp in H.
      pose proof (classifyIssue_value create this title description language
                    labels st) as Hr.
      cbv zeta in Hr. fold prompt in Hr.
      change (completion_request (mosaiaAgentId this) prompt)
        with primary_request in Hr.
      change (completion_request (Some fallback_model) prompt)
        with fallback_request in Hr.
      fold primary_call in Hr. fold fallback_call in Hr.
      rewrite H, Hf in Hr. cbn [attempt_value] in Hr.
      now rewrite Ht, Hv in Hr.
Qed.

Lemma fallback_after_primary_failure_witness :
  fst (classifyIssue
         (stubbed (Rejected connection_error)
            (Fulfilled (chat_response (difficulty_text "easy"))))
         sample_classifier (lit "Login button not working on Android")
         (lit "After UI update, login button does not respond.")
         (lit "JavaScript") (Some [lit "bug"]) start)
  = inr (difficulty_object "easy").
Proof.
  assert (H : fst (primary_attempt
                     (stubbed (Rejected connection_error)
                        (Fulfilled (chat_response (difficulty_text "easy"))))
                     sample_classifier
                     (buildPrompt (lit "Login button not working on Android")
                        (lit "After UI update, login button does not respond.")
                        (lit "JavaScript") (Some [lit "bug"]))
                     start)
              = inl connection_error)
    by (vm_compute; reflexivity).
  eapply (proj2 (proj2 (proj2 (fallback_after_primary_failure
            (stubbed (Rejected connection_error)
               (Fulfilled (chat_response (difficulty_text "easy"))))
            sample_classifier (lit "Login button not working on Android")
            (lit "After UI update, login button does not respond.")
            (lit "JavaScript") (Some [lit "bug"]) start))
          connection_error H)).
  - vm_compute. reflexivity.
  - vm_compute. reflexivity.
  - vm_compute. reflexivity.
Defined.

(** C3: when the primary call is fulfilled and extractJSON succeeds on its
    text, classifyIssue returns that result; the primary call is the only
    provider call of the run and the world is the one it left. *)
Theorem primary_success_returns
    (World : Type) (create : client -> request -> World -> outcome * World)
    (this : IssueClassifier) (title description language : jsstring)
    (labels : option (list jsstring)) (st : state World)
    (res text v : value) :
  let prompt := buildPrompt title description language labels in
  let run := classifyIssue create this title description language labels st in
  let primary_request := completion_request (mosaiaAgentId this) prompt in
  let primary_call := create (mosaiaClient this) primary_request (world st) in
  fst primary_call = Fulfilled res ->
  first_choice_content res = inr text ->
  extractJSON text = inr v ->
  fst run = extractJSON text
  /\ calls (trace (snd run)) =
     calls (trace st) ++ [EvCreate (mosaiaClient this) primary_request]
  /\ world (snd run) = snd primary_call.
Proof.
  intros prompt run primary_request primary_call H Ht Hv.
  assert (Hp : fst (primary_attempt create this prompt st) = inr v).
  { rewrite primary_attempt_value. fold primary_request primary_call.
    rewrite H. cbn [attempt_value]. now rewrite Ht. }
  split; [|split].
  - subst run. rewrite classifyIssue_value. fold prompt primary_request primary_call.
    rewrite H. cbn [attempt_value]. now rewrite Ht, Hv.
  - subst run. rewrite classifyIssue_calls. fold prompt. now rewrite Hp.
  - subst run. rewrite classifyIssue_run. fold prompt.
    pose proof (primary_attempt_world create this prompt st) as Hw.
    destruct (primary_attempt create this prompt st) as [[err|v'] st1];
      [discriminate Hp | exact Hw].
Qed.

Lemma primary_success_returns_witness :
  fst (classifyIssue
         (stubbed (Fulfilled (chat_response (difficulty_text "difficult")))
            (Rejected connection_error))
         sample_classifier (lit "Implement secure biometric authentication")
         (lit "Add fingerprint and face ID authentication support.")
         (lit "JavaScript / Java / Swift") (Some [lit "feature"; lit "security"])
         start)
  = inr (difficulty_object "difficult")
  /\ length (calls (trace (snd (classifyIssue
         (stubbed (Fulfilled (chat_response (difficulty_text "difficult")))
            (Rejected connection_error))
         sample_classifier (lit "Implement secure biometric authentication")
         (lit "Add fingerprint and face ID authentication support.")
         (lit "JavaScript / Java / Swift") (Some [lit "feature"; lit "security"])
         start)))) = 1.
Proof.
  destruct (@primary_success_returns nat
              (stubbed (Fulfilled (chat_response (difficulty_text "difficult")))
                 (Rejected connection_error))
              sample_classifier (lit "Implement secure biometric authentication")
              (lit "Add fingerprint and face ID authentication support.")
              (lit "JavaScript / Java / Swift")
              (Some [lit "feature"; lit "security"]) start
              (chat_response (difficulty_text "difficult"))
              (VStr (difficulty_text "difficult"))
              (difficulty_object "difficult")) as (Hv & Hc & _).
  - vm_compute. reflexivity.
  - vm_compute. reflexivity.
  - vm_compute. reflexivity.
  - split.
    + rewrite Hv. vm_compute. reflexivity.
    + rewrite Hc. reflexivity.
Defined.

(** C9: the result of classifyIssue is fixed by its arguments and by how the
    two provider calls end.  Two runs in which the calls end alike return
    the same; so do two calls in a row against stubbed providers, whose
    responses do not depend on the world. *)
Theorem classifyIssue_idempotent
    (World : Type) (create : client -> request -> World -> outcome * World)
    (this : IssueClassifier) (title description language : jsstring)
    (labels : option (list jsstring)) :
  let prompt := buildPrompt title description language labels in
  let primary_call (w : World) :=
    create (mosaiaClient this) (completion_request (mosaiaAgentId this) prompt) w in
  let fallback_call (w : World) :=
    create (fallbackClient this) (completion_request (Some fallback_model) prompt) w in
  (forall st st' : state World,
     fst (primary_call (world st)) = fst (primary_call (world st')) ->
     fst (fallback_call (snd (primary_call (world st))))
     = fst (fallback_call (snd (primary_call (world st')))) ->
     fst (classifyIssue create this title description language labels st)
     = fst (classifyIssue create this title description language labels st'))
  /\ (forall st : state World,
        (forall c req w w', fst (create c req w) = fst (create c req w')) ->
        let first := classifyIssue create this title description language labels st in
        let second :=
          classifyIssue create this title description language labels (snd first) in
        fst second = fst first).
Proof.
  intros prompt primary_call fallback_call.
  assert (G : forall st st' : state World,
             fst (primary_call (world st)) = fst (primary_call (world st')) ->
             fst (fallback_call (snd (primary_call (world st))))
             = fst (fallback_call (snd (primary_call (world st')))) ->
             fst (classifyIssue create this title description language labels st)
             = fst (classifyIssue create this title description language labels st')).
  { intros st st' Hp Hf. rewrite !classifyIssue_value. fold prompt.
    unfold primary_call, fallback_call in Hp, Hf. now rewrite Hp, Hf. }
  split; [exact G|].
  intros st Hstub first second. subst second. symmetry. apply G.
  - apply Hstub.
  - apply Hstub.
Qed.

Lemma classifyIssue_idempotent_witness :
  fst (classifyIssue
         (stubbed (Fulfilled (chat_response (lit "no idea")))
            (Fulfilled (chat_response (difficulty_text "medium"))))
         sample_classifier (lit "Optimize login flow") (lit "Race conditions.")
         (lit "JavaScript") None
         (snd (classifyIssue
                 (stubbed (Fulfilled (chat_response (lit "no idea")))
                    (Fulfilled (chat_response (difficulty_text "medium"))))
                 sample_classifier (lit "Optimize login flow") (lit "Race conditions.")
                 (lit "JavaScript") None start)))
  = fst (classifyIssue
           (stubbed (Fulfilled (chat_response (lit "no idea")))
              (Fulfilled (chat_response (difficulty_text "medium"))))
           sample_classifier (lit "Optimize login flow") (lit "Race conditions.")
           (lit "JavaScript") None start).
Proof.
  apply (proj2 (classifyIssue_idempotent
           (stubbed (Fulfilled (chat_response (lit "no idea")))
              (Fulfilled (chat_response (difficulty_text "medium"))))
           sample_classifier (lit "Optimize login flow") (lit "Race conditions.")
           (lit "JavaScript") None) start).
  intros c req w w'. reflexivity.
Defined.

(** A malformed response makes the attempt that received it throw a
    TypeError: at [.message] of an absent first choice, at [.content] of an
    absent message, or at [.replace] of an absent text. *)
Lemma malformed_attempt_value (res : value) :
  malformed_response res -> attempt_value (Fulfilled res) = inl JsTypeError.
Proof.
  intros H. unfold attempt_value, first_choice_content.
  destruct H as [props Hc | props cprops rest Hc Hm
                 | props cprops rest mprops Hc Hm Ht];
    cbn [get_prop]; rewrite Hc; cbn [get_index nth get_prop].
  - reflexivity.
  - rewrite Hm. reflexivity.
  - rewrite Hm. cbn [get_prop]. destruct Ht as [-> | ->]; reflexivity.
Qed.

(** C10: a malformed response is handled like any other failure.  From the
    primary provider it makes the primary attempt throw inside its [try]:
    the first handler runs and the fallback call follows.  From the fallback
    provider it makes the second handler run and the result null.  No error
    leaves classifyIssue. *)
Theorem malformed_response_is_caught
    (World : Type) (create : client -> request -> World -> outcome * World)
    (this : IssueClassifier) (title description language : jsstring)
    (labels : option (list jsstring)) (st : state World) :
  let prompt := buildPrompt title description language labels in
  let run := classifyIssue create this title description language labels st in
  let primary_request := completion_request (mosaiaAgentId this) prompt in
  let fallback_request := completion_request (Some fallback_model) prompt in
  let primary_call := create (mosaiaClient this) primary_request (world st) in
  let fallback_call := create (fallbackClient this) fallback_request (snd primary_call) in
  (forall res,
     fst primary_call = Fulfilled res -> malformed_response res ->
     fst (primary_attempt create this prompt st) = inl JsTypeError
     /\ In (primary_failed JsTypeError) (trace (snd run))
     /\ calls (trace (snd run)) =
        calls (trace st)
        ++ [EvCreate (mosaiaClient this) primary_request;
            EvCreate (fallbackClient this) fallback_request])
  /\ (forall err res,
        fst (primary_attempt create this prompt st) = inl err ->
        fst fallback_call = Fulfilled res -> malformed_response res ->
        fst run = inr VNull
        /\ In (fallback_failed JsTypeError) (trace (snd run)))
  /\ (exists v, fst run = inr v).
Proof.
  intros prompt run primary_request fallback_request primary_call fallback_call.
  split; [|split].
  - intros res H Hm.
    assert (Hp : fst (primary_attempt create this prompt st) = inl JsTypeError).
    { rewrite primary_attempt_value. fold primary_request primary_call.
      rewrite H. now apply malformed_attempt_value. }
    split; [exact Hp|]. split.
    + destruct (primary_attempt create this prompt st) as [r st1] eqn:E.
      cbn [fst] in Hp. subst r.
      eapply classifyIssue_primary_caught. exact E.
    + subst run. rewrite classifyIssue_calls. fold prompt. now rewrite Hp.
  - intros err res Hp Hf Hm.
    pose proof (primary_attempt_world create this prompt st) as Hw.
    destruct (primary_attempt create this prompt st) as [r st1] eqn:E.
    cbn [fst snd] in Hp, Hw. subst r.
    pose proof (fallback_attempt_value create this prompt
                  (logged st1 (primary_failed err))) as Hv.
    cbn [logged world] in Hv. rewrite Hw in Hv.
    fold primary_request fallback_request in Hv. fold primary_call in Hv.
    fold fallback_call in Hv. rewrite Hf, (malformed_attempt_value Hm) in Hv.
    destruct (fallback_attempt create this prompt (logged st1 (primary_failed err)))
      as [r2 st2] eqn:E2.
    cbn [fst] in Hv. subst r2.
    eapply classifyIssue_fallback_caught; eassumption.
  - subst run. rewrite classifyIssue_value. eauto.
Qed.

Lemma malformed_response_is_caught_witness :
  fst (classifyIssue
         (stubbed (Fulfilled (VObj [(lit "choices", VArr [])]))
            (Fulfilled (VObj [(lit "choices",
                               VArr [VObj [(lit "message",
                                            VObj [(lit "content", VNull)])]])])))
         sample_classifier (lit "Fix login bug on mobile")
         (lit "The login button does not respond.") (lit "JavaScript")
         (Some [lit "bug"; lit "mobile"]) start)
  = inr VNull
  /\ In (fallback_failed JsTypeError)
       (trace (snd (classifyIssue
         (stubbed (Fulfilled (VObj [(lit "choices", VArr [])]))
            (Fulfilled (VObj [(lit "choices",
                               VArr [VObj [(lit "message",
                                            VObj [(lit "content", VNull)])]])])))
         sample_classifier (lit "Fix login bug on mobile")
         (lit "The login button does not respond.") (lit "JavaScript")
         (Some [lit "bug"; lit "mobile"]) start))).
Proof.
  destruct (malformed_response_is_caught
              (stubbed (Fulfilled (VObj [(lit "choices", VArr [])]))
                 (Fulfilled (VObj [(lit "choices",
                                    VArr [VObj [(lit "message",
                                                 VObj [(lit "content", VNull)])]])])))
              sample_classifier (lit "Fix login bug on mobile")
              (lit "The login button does not respond.") (lit "JavaScript")
              (Some [lit "bug"; lit "mobile"]) start) as (Hp & Hf & _).
  destruct (Hp (VObj [(lit "choices", VArr [])])) as (Hp1 & _).
  - vm_compute. reflexivity.
  - apply empty_choices. vm_compute. reflexivity.
  - apply (Hf JsTypeError
             (VObj [(lit "choices",
                     VArr [VObj [(lit "message", VObj [(lit "content", VNull)])]])])).
    + exact Hp1.
    + vm_compute. reflexivity.
    + eapply missing_content.
      * vm_compute. reflexivity.
      * vm_compute. reflexivity.
      * right. vm_compute. reflexivity.
Defined.

(** ** The constructor *)

(** C6: with three non-empty credentials the constructor builds the
    instance and its two clients; when a credential is missing or empty it
    throws its Error and leaves the state as it was: no client is created. *)
Theorem constructor_contract (World : Type) (st : state World) :
  (forall key agent fallbackKey : jsstring,
     key <> [] -> agent <> [] -> fallbackKey <> [] ->
     let mosaia :=
       {| apiKey := Some key; baseURL := lit "https://api.mosaia.ai/v1/agent" |} in
     let openRouter :=
       {| apiKey := Some fallbackKey; baseURL := lit "https://openrouter.ai/api/v1" |} in
     constructor
       {| Config.mosaiaApiKey := Some key;
          Config.mosaiaAgentId := Some agent;
          Config.openRouterApiKey := Some fallbackKey |} st
     = (inr {| mosaiaClient := mosaia;
               fallbackClient := openRouter;
               mosaiaAgentId := Some agent |},
        {| world := world st;
           trace := (trace st ++ [EvNewClient mosaia]) ++ [EvNewClient openRouter] |}))
  /\ (forall cfg : Config.t,
        In (Config.mosaiaApiKey cfg) [None; Some []]
        \/ In (Config.mosaiaAgentId cfg) [None; Some []]
        \/ In (Config.openRouterApiKey cfg) [None; Some []] ->
        constructor cfg st = (inl (JsError constructor_message), st)).
Proof.
  split.
  - intros key agent fallbackKey Hk Ha Hf mosaia openRouter.
    destruct key as [|k key]; [contradiction|].
    destruct agent as [|a agent]; [contradiction|].
    destruct fallbackKey as [|f fallbackKey]; [contradiction|].
    reflexivity.
  - intros [k a f] H. unfold constructor. cbn [Config.mosaiaApiKey
      Config.mosaiaAgentId Config.openRouterApiKey] in *.
    assert (E : negb (truthy k) || negb (truthy a) || negb (truthy f) = true).
    { destruct H as [H | [H | H]];
        destruct H as [<- | [<- | []]]; cbn;
        rewrite ?orb_true_r; reflexivity. }
    rewrite E. reflexivity.
Qed.

Lemma constructor_contract_witness :
  fst (constructor sample_config start) = inr sample_classifier
  /\ constructor
       {| Config.mosaiaApiKey := Some (lit "mosaia-key");
          Config.mosaiaAgentId := Some [];
          Config.openRouterApiKey := None |} start
     = (inl (JsError constructor_message), start).
Proof.
  split.
  - unfold sample_config.
    rewrite (proj1 (constructor_contract start)
               (lit "mosaia-key") (lit "6861a37adc8f3af29840e926")
               (lit "openrouter-key"));
      [reflexivity | discriminate | discriminate | discriminate].
  - apply (proj2 (constructor_contract start)).
    right. left. right. left. reflexivity.
Defined.

(** ** buildPrompt *)

(** C7: buildPrompt is a function of its four arguments and nothing else.
    Its output is the fixed text with the three tiers, then the title, the
    description, the language and the label list on their lines; the label
    list is "None" for no labels and the labels joined by ", " in their
    order otherwise. *)
Theorem buildPrompt_pure :
  (forall title description language labels title' description' language' labels',
     title = title' -> description = description' -> language = language' ->
     labels = labels' ->
     buildPrompt title description language labels
     = buildPrompt title' description' language' labels')
  /\ (forall title description language labels,
        let labelString :=
          match labels with
          | [] => lit "None"
          | _ :: _ => join (lit ", ") labels
          end in
        buildPrompt title description language (Some labels)
        = (tpl_rubric ++ labelString ++ tpl_task)
          ++ lit "    Title: " ++ title ++ nl
          ++ lit "    Description: " ++ description ++ nl
          ++ lit "    Language: " ++ language ++ nl
          ++ lit "    Labels: " ++ labelString ++ nl
          ++ lit "    ")
  /\ (forall title description language,
        buildPrompt title description language None
        = buildPrompt title description language (Some []))
  /\ (forall sep x y xs,
        join sep [x] = x /\ join sep (x :: y :: xs) = x ++ sep ++ join sep (y :: xs))
  /\ includes tpl_rubric (lit "**Easy:**")
     && includes tpl_rubric (lit "**Medium:**")
     && includes tpl_rubric (lit "**Difficult:**") = true.
Proof.
  split; [|split; [|split; [|split]]].
  - intros; subst; reflexivity.
  - intros title description language labels labelString.
    unfold buildPrompt.
    replace (if 0 <? length labels then join (lit ", ") labels else lit "None")
      with labelString by (subst labelString; destruct labels; reflexivity).
    unfold tpl_title, tpl_description, tpl_language, tpl_labels, tpl_end.
    now rewrite <- !app_assoc.
  - reflexivity.
  - intros sep x y xs. split; reflexivity.
  - vm_compute. reflexivity.
Qed.

Lemma buildPrompt_pure_witness :
  buildPrompt (lit "Fix login bug on mobile") (lit "No response.") (lit "JavaScript")
    (Some [lit "bug"; lit "mobile"])
  = buildPrompt (lit "Fix login bug on mobile") (lit "No response.") (lit "JavaScript")
      (Some [lit "bug"; lit "mobile"]).
Proof.
  apply (proj1 buildPrompt_pure); reflexivity.
Defined.

(** * Further properties *)

(** ** One call of classifyIssue, in full *)

Section FullRun.

Variable World : Type.
Variable create : client -> request -> World -> outcome * World.
Variable this : IssueClassifier.
Variables title description language : jsstring.
Variable labels : option (list jsstring).

Local Abbreviation prompt := (buildPrompt title description language labels).
Local Abbreviation primary_call st :=
  (create (mosaiaClient this)
     (completion_request (mosaiaAgentId this) prompt) (world st)).
Local Abbreviation fallback_call st :=
  (create (fallbackClient this)
     (completion_request (Some fallback_model) prompt) (snd (primary_call st))).

(** The result, the world and the trace of a run. *)
Lemma classifyIssue_full (st : state World) :
  classifyIssue create this title description language labels st =
  (inr match attempt_value (fst (primary_call st)) with
       | inr v => v
       | inl _ =>
           match attempt_value (fst (fallback_call st)) with
           | inr v => v
           | inl _ => VNull
           end
       end,
   {| world := match attempt_value (fst (primary_call st)) with
               | inr _ => snd (primary_call st)
               | inl _ => snd (fallback_call st)
               end;
      trace := trace st
               ++ run_events this prompt
                    (fst (primary_call st)) (fst (fallback_call st)) |}).
Proof.
  rewrite classifyIssue_run, primary_attempt_run.
  unfold run_events, attempt_events.
  destruct (primary_call st) as [[res|e] w1]; cbn [fst snd attempt_value];
    [destruct (first_choice_content res) as [e|text];
       [|destruct (extractJSON text) as [e|v]]|];
    try (now rewrite <- !app_assoc);
    rewrite fallback_attempt_run; cbn [logged world trace];
    (destruct (create (fallbackClient this) _ w1) as [[res2|e2] w2];
       cbn [fst snd attempt_value];
       [destruct (first_choice_content res2) as [e2|text2];
          [|destruct (extractJSON text2)]|]);
    unfold logged; cbn [world trace]; rewrite <- ?app_assoc; reflexivity.
Qed.

End FullRun.

(** ** What classifyIssue returns and writes *)

(** On any argument, what extractJSON returns is an object. *)
Lemma extractJSON_object (text v : value) :
  extractJSON text = inr v -> exists props, v = VObj props.
Proof.
  destruct text as [| | | |s| |]; try discriminate.
  rewrite extractJSON_unfold.
  destruct (brace_span (trim (strip_fence_markers s))) as [m|] eqn:Hm;
    [|discriminate].
  destruct (JSON_parse m) as [v'|] eqn:Hv; [|discriminate].
  intros H. injection H as <-.
  apply brace_span_some in Hm. destruct Hm as (_ & mid & _ & _ & -> & _).
  eapply JSON_parse_object; [reflexivity | exact Hv].
Qed.

Lemma attempt_value_object (o : outcome) (v : value) :
  attempt_value o = inr v -> exists props, v = VObj props.
Proof.
  destruct o as [res|e]; [|discriminate]. cbn [attempt_value].
  destruct (first_choice_content res) as [e|text]; [discriminate|].
  apply extractJSON_object.
Qed.

Lemma calls_run_events (this : IssueClassifier) (prompt : jsstring)
    (primary fallback : outcome) :
  calls (run_events this prompt primary fallback) =
  EvCreate (mosaiaClient this) (completion_request (mosaiaAgentId this) prompt)
  :: match attempt_value primary with
     | inr _ => []
     | inl _ => [EvCreate (fallbackClient this)
                   (completion_request (Some fallback_model) prompt)]
     end.
Proof.
  unfold run_events, attempt_events.
  destruct primary as [res|e]; cbn [attempt_value];
    [destruct (first_choice_content res) as [e|text];
       [|destruct (extractJSON text)]|];
    try reflexivity;
    (destruct fallback as [res2|e2]; cbn [attempt_value];
       [destruct (first_choice_content res2) as [e2|text2];
          [|destruct (extractJSON text2)]|]);
    reflexivity.
Qed.

Lemma warns_run_events (this : IssueClassifier) (prompt : jsstring)
    (primary fallback : outcome) :
  filter is_warn (run_events this prompt primary fallback) =
  match attempt_value primary with
  | inr _ => []
  | inl err => [primary_failed err]
  end.
Proof.
  unfold run_events, attempt_events.
  destruct primary as [res|e]; cbn [attempt_value];
    [destruct (first_choice_content res) as [e|text];
       [|destruct (extractJSON text)]|];
    try reflexivity;
    (destruct fallback as [res2|e2]; cbn [attempt_value];
       [destruct (first_choice_content res2) as [e2|text2];
          [|destruct (extractJSON text2)]|]);
    reflexivity.
Qed.

Lemma errors_run_events (this : IssueClassifier) (prompt : jsstring)
    (primary fallback : outcome) :
  filter is_error (run_events this prompt primary fallback) =
  match attempt_value primary with
  | inr _ => []
  | inl _ =>
      match attempt_value fallback with
      | inr _ => []
      | inl fallbackErr => [fallback_failed fallbackErr]
      end
  end.
Proof.
  unfold run_events, attempt_events.
  destruct primary as [res|e]; cbn [attempt_value];
    [destruct (first_choice_content res) as [e|text];
       [|destruct (extractJSON text)]|];
    try reflexivity;
    (destruct fallback as [res2|e2]; cbn [attempt_value];
       [destruct (first_choice_content res2) as [e2|text2];
          [|destruct (extractJSON text2)]|]);
    reflexivity.
Qed.

(** X1: classifyIssue returns an object or null, never anything else, and
    null exactly when both attempts threw. *)
Theorem classifyIssue_object_or_null
    (World : Type) (create : client -> request -> World -> outcome * World)
    (this : IssueClassifier) (title description language : jsstring)
    (labels : option (list jsstring)) (st : state World) :
  let prompt := buildPrompt title description language labels in
  let run := classifyIssue create this title description language labels st in
  let primary_call :=
    create (mosaiaClient this)
      (completion_request (mosaiaAgentId this) prompt) (world st) in
  let fallback_call :=
    create (fallbackClient this)
      (completion_request (Some fallback_model) prompt) (snd primary_call) in
  (fst run = inr VNull \/ exists props, fst run = inr (VObj props))
  /\ (fst run = inr VNull <->
      (exists err, attempt_value (fst primary_call) = inl err)
      /\ (exists fallbackErr, attempt_value (fst fallback_call) = inl fallbackErr)).
Proof.
  intros prompt run primary_call fallback_call.
  subst run. rewrite classifyIssue_full. cbn [fst].
  fold prompt. fold primary_call. fold fallback_call.
  destruct (attempt_value (fst primary_call)) as [err|v] eqn:Ep.
  - destruct (attempt_value (fst fallback_call)) as [fallbackErr|v] eqn:Ef.
    + split; [now left|]. split; [eauto | reflexivity].
    + destruct (attempt_value_object _ Ef) as [props ->].
      split; [right; eauto|].
      split; [discriminate | intros [_ [e He]]; discriminate].
  - destruct (attempt_value_object _ Ep) as [props ->].
    split; [right; eauto|].
    split; [discriminate | intros [[e He] _]; discriminate].
Qed.

(** X2: the console tells what happened.  A run makes one provider call or
    two; it writes its warning exactly when it makes the second call, and
    its error line exactly when it returns null. *)
Theorem classifyIssue_console_record
    (World : Type) (create : client -> request -> World -> outcome * World)
    (this : IssueClassifier) (title description language : jsstring)
    (labels : option (list jsstring)) (st : state World) :
  let run := classifyIssue create this title description language labels st in
  exists evs,
    trace (snd run) = trace st ++ evs
    /\ (length (calls evs) = 1 \/ length (calls evs) = 2)
    /\ length (filter is_warn evs) <= 1
    /\ length (filter is_error evs) <= 1
    /\ (filter is_warn evs <> [] <-> length (calls evs) = 2)
    /\ (filter is_error evs <> [] <-> fst run = inr VNull).
Proof.
  intros run. subst run. rewrite classifyIssue_full. cbn [fst snd trace].
  eexists. split; [reflexivity|].
  rewrite calls_run_events, warns_run_events, errors_run_events.
  destruct (attempt_value (fst (create (mosaiaClient this) _ (world st))))
    as [err|v] eqn:Ep.
  - destruct (attempt_value (fst (create (fallbackClient this) _ _)))
      as [fallbackErr|v] eqn:Ef; cbn [length].
    + repeat split; auto; discriminate.
    + destruct (attempt_value_object _ Ef) as [props ->].
      repeat split; auto; try discriminate; intros H; now contradiction H.
  - destruct (attempt_value_object _ Ep) as [props ->]. cbn [length].
    repeat split; auto; try discriminate; intros H; now contradiction H.
Qed.

(** ** The constructor, then classifyIssue *)

(** What a successful construction has done. *)
Lemma constructor_inv (World : Type) (cfg : Config.t) (st st1 : state World)
    (this : IssueClassifier) :
  constructor cfg st = (inr this, st1) ->
  (truthy (Config.mosaiaApiKey cfg) = true
   /\ truthy (Config.mosaiaAgentId cfg) = true
   /\ truthy (Config.openRouterApiKey cfg) = true)
  /\ this = {| mosaiaClient := {| apiKey := Config.mosaiaApiKey cfg;
                                  baseURL := mosaia_url |};
               fallbackClient := {| apiKey := Config.openRouterApiKey cfg;
                                    baseURL := openrouter_url |};
               mosaiaAgentId := Config.mosaiaAgentId cfg |}
  /\ st1 = {| world := world st;
              trace := trace st
                       ++ [EvNewClient {| apiKey := Config.mosaiaApiKey cfg;
                                          baseURL := mosaia_url |};
                           EvNewClient {| apiKey := Config.openRouterApiKey cfg;
                                          baseURL := openrouter_url |}] |}.
Proof.
  unfold constructor.
  destruct (truthy (Config.mosaiaApiKey cfg)); [|discriminate].
  destruct (truthy (Config.mosaiaAgentId cfg)); [|discriminate].
  destruct (truthy (Config.openRouterApiKey cfg)); [|discriminate].
  cbn [negb orb]. unfold bind, new_OpenAI, bind, emit, ret. cbn [world trace].
  intros H. injection H as <- <-. rewrite <- app_assoc.
  repeat split; reflexivity.
Qed.

Lemma constructor_throws (World : Type) (cfg : Config.t) (st : state World) :
  truthy (Config.mosaiaApiKey cfg) = false
  \/ truthy (Config.mosaiaAgentId cfg) = false
  \/ truthy (Config.openRouterApiKey cfg) = false ->
  constructor cfg st = (inl (JsError constructor_message), st).
Proof.
  intros H. unfold constructor.
  destruct H as [-> | [-> | ->]]; cbn [negb orb];
    rewrite ?orb_true_r; reflexivity.
Qed.

Lemma constructor_returns (World : Type) (cfg : Config.t) (st : state World) :
  truthy (Config.mosaiaApiKey cfg) = true ->
  truthy (Config.mosaiaAgentId cfg) = true ->
  truthy (Config.openRouterApiKey cfg) = true ->
  constructor cfg st =
  (inr {| mosaiaClient := {| apiKey := Config.mosaiaApiKey cfg;
                             baseURL := mosaia_url |};
          fallbackClient := {| apiKey := Config.openRouterApiKey cfg;
                               baseURL := openrouter_url |};
          mosaiaAgentId := Config.mosaiaAgentId cfg |},
   {| world := world st;
      trace := trace st
               ++ [EvNewClient {| apiKey := Config.mosaiaApiKey cfg;
                                  baseURL := mosaia_url |};
                   EvNewClient {| apiKey := Config.openRouterApiKey cfg;
                                  baseURL := openrouter_url |}] |}).
Proof.
  intros H1 H2 H3. unfold constructor. rewrite H1, H2, H3.
  cbn [negb orb]. unfold bind, new_OpenAI, bind, emit, ret. cbn [world trace].
  now rewrite <- app_assoc.
Qed.

(** X3: a classifier that the constructor built keeps its credentials
    apart.  Each provider call of a run goes to the Mosaia endpoint with the
    Mosaia key and the agent id as model, or to the OpenRouter endpoint with
    the OpenRouter key and the fixed model; none of the three configured
    values is empty. *)
Theorem calls_keep_credentials_apart
    (World : Type) (create : client -> request -> World -> outcome * World)
    (cfg : Config.t) (st0 st1 : state World) (this : IssueClassifier)
    (title description language : jsstring) (labels : option (list jsstring))
    (st : state World) :
  constructor cfg st0 = (inr this, st1) ->
  let prompt := buildPrompt title description language labels in
  let run := classifyIssue create this title description language labels st in
  exists cs,
    calls (trace (snd run)) = calls (trace st) ++ cs
    /\ Forall
         (fun e =>
            e = EvCreate {| apiKey := Config.mosaiaApiKey cfg;
                            baseURL := lit "https://api.mosaia.ai/v1/agent" |}
                  (completion_request (Config.mosaiaAgentId cfg) prompt)
            \/ e = EvCreate {| apiKey := Config.openRouterApiKey cfg;
                               baseURL := lit "https://openrouter.ai/api/v1" |}
                     (completion_request (Some fallback_model) prompt))
         cs
    /\ Config.mosaiaApiKey cfg <> None /\ Config.mosaiaApiKey cfg <> Some []
    /\ Config.mosaiaAgentId cfg <> None /\ Config.mosaiaAgentId cfg <> Some []
    /\ Config.openRouterApiKey cfg <> None /\ Config.openRouterApiKey cfg <> Some [].
Proof.
  intros H prompt run.
  apply constructor_inv in H. destruct H as ((H1 & H2 & H3) & -> & _).
  subst run. rewrite classifyIssue_calls. fold prompt.
  eexists. split; [reflexivity|]. split.
  - cbn [mosaiaClient fallbackClient mosaiaAgentId].
    constructor; [now left|].
    destruct (fst (primary_attempt create _ prompt st)); constructor;
      [now right | constructor].
  - repeat split; intros E; rewrite E in *; discriminate.
Qed.

Lemma calls_keep_credentials_apart_witness :
  exists cs,
    calls (trace (snd (classifyIssue
                         (stubbed (Rejected connection_error)
                            (Rejected connection_error))
                         sample_classifier easyTitle easyDescription easyLanguage
                         (Some easyLabels) start)))
    = calls (trace start) ++ cs
    /\ length cs = 2.
Proof.
  destruct (@calls_keep_credentials_apart nat
              (stubbed (Rejected connection_error) (Rejected connection_error))
              sample_config start
              (snd (constructor sample_config start))
              sample_classifier easyTitle easyDescription easyLanguage
              (Some easyLabels) start) as (cs & Hc & _).
  - vm_compute. reflexivity.
  - exists cs. split; [exact Hc|].
    apply (f_equal (@length event)) in Hc.
    rewrite length_app in Hc. vm_compute in Hc.
    symmetry. exact Hc.
Defined.

(** ** The entry point *)

(** A run of [main] that gets past the constructor, in full. *)
Lemma main_full (World : Type)
    (create : client -> request -> World -> outcome * World)
    (env : Env.t) (st : state World) :
  truthy (Env.MOSAIA_API_KEY env) = true ->
  truthy (Env.MOSAIA_AGENT_ID env) = true ->
  truthy (Env.OPENAI_API_KEY env) = true ->
  exists (easy easy' medium medium' difficult difficult' : outcome) (w : World),
    main create env st =
    (inr tt,
     {| world := w;
        trace := trace st
                 ++ main_events env easy easy' medium medium' difficult difficult' |}).
Proof.
  intros H1 H2 H3. unfold main.
  unfold bind at 1.
  rewrite constructor_returns by assumption.
  fold (main_classifier env).
  unfold bind, console, emit, ret. cbn [world trace].
  rewrite classifyIssue_full. cbn [world trace].
  rewrite classifyIssue_full. cbn [world trace].
  rewrite classifyIssue_full. cbn [world trace].
  do 7 eexists. f_equal. f_equal.
  unfold main_events, run_value, easyPrompt, mediumPrompt, difficultPrompt.
  rewrite <- !app_assoc. cbn [app mosaiaClient fallbackClient main_classifier].
  reflexivity.
Qed.

(** Splits a run into the ways its two attempts can end. *)
Ltac run_cases primary fallback :=
  unfold run_events, attempt_events;
  destruct primary, fallback; cbn [attempt_value];
  repeat match goal with
         | |- context [first_choice_content ?r] =>
             destruct (first_choice_content r)
         | |- context [extractJSON ?t] => destruct (extractJSON t)
         end;
  try reflexivity.

Lemma new_clients_run_events (this : IssueClassifier) (prompt : jsstring)
    (primary fallback : outcome) :
  filter is_new_client (run_events this prompt primary fallback) = [].
Proof. run_cases primary fallback. Qed.

Lemma missing_run_events (this : IssueClassifier) (prompt : jsstring)
    (primary fallback : outcome) :
  filter reports_missing (run_events this prompt primary fallback) = [].
Proof. run_cases primary fallback. Qed.

Lemma classification_lines_run_events (this : IssueClassifier) (prompt : jsstring)
    (primary fallback : outcome) :
  filter is_classification_line (run_events this prompt primary fallback) = [].
Proof. run_cases primary fallback. Qed.

Lemma calls_to_run_events (url : jsstring) (this : IssueClassifier)
    (prompt : jsstring) (primary fallback : outcome) :
  calls_to url (run_events this prompt primary fallback) =
  (if str_eqb (baseURL (mosaiaClient this)) url
   then [EvCreate (mosaiaClient this)
           (completion_request (mosaiaAgentId this) prompt)]
   else [])
  ++ match attempt_value primary with
     | inr _ => []
     | inl _ =>
         if str_eqb (baseURL (fallbackClient this)) url
         then [EvCreate (fallbackClient this)
                 (completion_request (Some fallback_model) prompt)]
         else []
     end.
Proof.
  unfold calls_to.
  run_cases primary fallback;
    cbn [filter app];
    destruct (str_eqb (baseURL (mosaiaClient this)) url);
    destruct (str_eqb (baseURL (fallbackClient this)) url); reflexivity.
Qed.

Lemma run_value_object_or_null (primary fallback : outcome) :
  run_value primary fallback = VNull
  \/ exists props, run_value primary fallback = VObj props.
Proof.
  unfold run_value.
  destruct (attempt_value primary) as [e|v] eqn:Ep.
  - destruct (attempt_value fallback) as [e'|v] eqn:Ef; [now left|].
    right. eapply attempt_value_object. exact Ef.
  - right. eapply attempt_value_object. exact Ep.
Qed.

(** X4: when a variable is not set or is empty, [main] throws the
    constructor's Error at once: nothing is printed, no client is created
    and no provider is called. *)
Theorem main_missing_credential
    (World : Type) (create : client -> request -> World -> outcome * World)
    (env : Env.t) (st : state World) :
  In (Env.MOSAIA_API_KEY env) [None; Some []]
  \/ In (Env.MOSAIA_AGENT_ID env) [None; Some []]
  \/ In (Env.OPENAI_API_KEY env) [None; Some []] ->
  main create env st = (inl (JsError constructor_message), st).
Proof.
  intros H. unfold main. unfold bind at 1.
  rewrite constructor_throws; [reflexivity|].
  cbn [Config.mosaiaApiKey Config.mosaiaAgentId Config.openRouterApiKey].
  destruct H as [H | [H | H]]; [left | right; left | right; right];
    destruct H as [<- | [<- | []]]; reflexivity.
Qed.

Lemma main_missing_credential_witness :
  main (stubbed (Fulfilled (chat_response (difficulty_text "easy")))
          (Fulfilled (chat_response (difficulty_text "easy"))))
    {| Env.MOSAIA_API_KEY := Some (lit "mosaia-key");
       Env.MOSAIA_AGENT_ID := Some (lit "6861a37adc8f3af29840e926");
       Env.OPENAI_API_KEY := None |} start
  = (inl (JsError constructor_message), start).
Proof.
  apply main_missing_credential. right. right. left. reflexivity.
Defined.

(** X5: [main] never prints that a variable is missing.  Its three status
    lines come after the constructor, which has thrown by then if one is. *)
Theorem main_never_reports_missing
    (World : Type) (create : client -> request -> World -> outcome * World)
    (env : Env.t) (st : state World) :
  exists evs,
    trace (snd (main create env st)) = trace st ++ evs
    /\ filter reports_missing evs = [].
Proof.
  destruct (truthy (Env.MOSAIA_API_KEY env)) eqn:H1;
    [destruct (truthy (Env.MOSAIA_AGENT_ID env)) eqn:H2;
       [destruct (truthy (Env.OPENAI_API_KEY env)) eqn:H3|]|].
  - destruct (main_full create env st H1 H2 H3)
      as (o1 & o1' & o2 & o2' & o3 & o3' & w & ->).
    eexists. split; [reflexivity|].
    unfold main_events. rewrite !filter_app, !missing_run_events.
    unfold loaded_or_missing. rewrite H1, H2, H3. reflexivity.
  - exists []. unfold main. unfold bind at 1.
    rewrite constructor_throws by (cbn; auto).
    cbn. now rewrite app_nil_r.
  - exists []. unfold main. unfold bind at 1.
    rewrite constructor_throws by (cbn; auto).
    cbn. now rewrite app_nil_r.
  - exists []. unfold main. unfold bind at 1.
    rewrite constructor_throws by (cbn; auto).
    cbn. now rewrite app_nil_r.
Qed.

(** X6: with its three variables set, [main] runs to its end whatever the
    providers do.  It creates two clients, sends the three prompts to the
    Mosaia endpoint in the order easy, medium, difficult, makes at most
    three fallback calls, and prints three classifications in that order,
    each an object or null. *)
Theorem main_completes
    (World : Type) (create : client -> request -> World -> outcome * World)
    (env : Env.t) (st : state World) :
  truthy (Env.MOSAIA_API_KEY env) = true ->
  truthy (Env.MOSAIA_AGENT_ID env) = true ->
  truthy (Env.OPENAI_API_KEY env) = true ->
  exists evs r1 r2 r3,
    fst (main create env st) = inr tt
    /\ trace (snd (main create env st)) = trace st ++ evs
    /\ length (filter is_new_client evs) = 2
    /\ calls_to (lit "https://api.mosaia.ai/v1/agent") evs =
       map (fun p => EvCreate
                       {| apiKey := Env.MOSAIA_API_KEY env;
                          baseURL := lit "https://api.mosaia.ai/v1/agent" |}
                       (completion_request (Env.MOSAIA_AGENT_ID env) p))
           [buildPrompt easyTitle easyDescription easyLanguage (Some easyLabels);
            buildPrompt mediumTitle mediumDescription mediumLanguage
              (Some mediumLabels);
            buildPrompt difficultTitle difficultDescription difficultLanguage
              (Some difficultLabels)]
    /\ length (calls_to (lit "https://openrouter.ai/api/v1") evs) <= 3
    /\ length (calls evs)
       = 3 + length (calls_to (lit "https://openrouter.ai/api/v1") evs)
    /\ filter is_classification_line evs =
       [EvConsole Log [ArgStr (lit "Easy issue classification:"); ArgVal r1];
        EvConsole Log [ArgStr (lit "Medium issue classification:"); ArgVal r2];
        EvConsole Log [ArgStr (lit "Difficult issue classification:"); ArgVal r3]]
    /\ Forall (fun r => r = VNull \/ exists props, r = VObj props) [r1; r2; r3].
Proof.
  intros H1 H2 H3.
  destruct (main_full create env st H1 H2 H3)
    as (o1 & o1' & o2 & o2' & o3 & o3' & w & ->).
  exists (main_events env o1 o1' o2 o2' o3 o3'),
    (run_value o1 o1'), (run_value o2 o2'), (run_value o3 o3').
  split; [reflexivity|]. split; [reflexivity|].
  unfold main_events.
  change (lit "https://api.mosaia.ai/v1/agent") with mosaia_url.
  change (lit "https://openrouter.ai/api/v1") with openrouter_url.
  assert (Emm : str_eqb mosaia_url mosaia_url = true) by (vm_compute; reflexivity).
  assert (Emo : str_eqb mosaia_url openrouter_url = false)
    by (vm_compute; reflexivity).
  assert (Eom : str_eqb openrouter_url mosaia_url = false)
    by (vm_compute; reflexivity).
  assert (Eoo : str_eqb openrouter_url openrouter_url = true)
    by (vm_compute; reflexivity).
  split; [|split; [|split; [|split; [|split]]]].
  - rewrite !filter_app, !new_clients_run_events. reflexivity.
  - unfold calls_to at 1. rewrite !filter_app.
    repeat match goal with
           | |- context [filter ?f (run_events ?t ?p ?a ?b)] =>
               change (filter f (run_events t p a b))
                 with (calls_to mosaia_url (run_events t p a b));
               rewrite (calls_to_run_events mosaia_url t p a b)
           end.
    cbn [main_classifier mosaiaClient fallbackClient baseURL mosaiaAgentId].
    rewrite Emm, Eom.
    destruct (attempt_value o1); destruct (attempt_value o2);
      destruct (attempt_value o3); reflexivity.
  - unfold calls_to at 1. rewrite !filter_app.
    repeat match goal with
           | |- context [filter ?f (run_events ?t ?p ?a ?b)] =>
               change (filter f (run_events t p a b))
                 with (calls_to openrouter_url (run_events t p a b));
               rewrite (calls_to_run_events openrouter_url t p a b)
           end.
    cbn [main_classifier mosaiaClient fallbackClient baseURL mosaiaAgentId].
    rewrite Emo, Eoo.
    destruct (attempt_value o1); destruct (attempt_value o2);
      destruct (attempt_value o3); cbn; lia.
  - unfold calls_to at 1. rewrite !calls_app, !filter_app.
    repeat match goal with
           | |- context [filter ?f (run_events ?t ?p ?a ?b)] =>
               change (filter f (run_events t p a b))
                 with (calls_to openrouter_url (run_events t p a b));
               rewrite (calls_to_run_events openrouter_url t p a b)
           end.
    rewrite !calls_run_events.
    cbn [main_classifier mosaiaClient fallbackClient baseURL mosaiaAgentId].
    rewrite Emo, Eoo.
    destruct (attempt_value o1); destruct (attempt_value o2);
      destruct (attempt_value o3); reflexivity.
  - rewrite !filter_app, !classification_lines_run_events. reflexivity.
  - repeat (apply Forall_cons; [apply run_value_object_or_null|]).
    apply Forall_nil.
Qed.

Lemma main_completes_witness :
  exists evs r1 r2 r3,
    fst (main (stubbed (Fulfilled (chat_response (lit "no idea")))
                 (Fulfilled (chat_response (difficulty_text "medium"))))
           sample_env start) = inr tt
    /\ trace (snd (main (stubbed (Fulfilled (chat_response (lit "no idea")))
                           (Fulfilled (chat_response (difficulty_text "medium"))))
                     sample_env start)) = trace start ++ evs
    /\ filter is_classification_line evs =
       [EvConsole Log [ArgStr (lit "Easy issue classification:"); ArgVal r1];
        EvConsole Log [ArgStr (lit "Medium issue classification:"); ArgVal r2];
        EvConsole Log [ArgStr (lit "Difficult issue classification:"); ArgVal r3]].
Proof.
  destruct (@main_completes nat
              (stubbed (Fulfilled (chat_response (lit "no idea")))
                 (Fulfilled (chat_response (difficulty_text "medium"))))
              sample_env start eq_refl eq_refl eq_refl)
    as (evs & r1 & r2 & r3 & Hv & Ht & _ & _ & _ & _ & Hl & _).
  exists evs, r1, r2, r3. auto.
Defined.

(** ** More on extractJSON *)

Lemma is_space_not_brace (c : cu) :
  is_space c = true -> c <> lbrace /\ c <> rbrace.
Proof. intros H. split; intros ->; discriminate H. Qed.

Lemma trimStart_split (s : jsstring) :
  exists ws, s = ws ++ trimStart s /\ Forall (fun c => is_space c = true) ws.
Proof.
  induction s as [|c s (ws & Hs & Hw)]; [now exists []|].
  cbn [trimStart]. destruct (is_space c) eqn:E.
  - exists (c :: ws). split; [cbn; now f_equal | now constructor].
  - now exists [].
Qed.

Lemma trimEnd_split (s : jsstring) :
  exists ws, s = trimEnd s ++ ws /\ Forall (fun c => is_space c = true) ws.
Proof.
  unfold trimEnd. destruct (trimStart_split (rev s)) as (ws & Hs & Hw).
  exists (rev ws). split.
  - rewrite <- rev_app_distr, <- Hs. symmetry. apply rev_involutive.
  - apply Forall_rev. exact Hw.
Qed.

Lemma brace_span_skip (ws s : jsstring) :
  Forall (fun c => is_space c = true) ws -> brace_span (ws ++ s) = brace_span s.
Proof.
  intros H. induction H as [|c ws Hc _ IH]; [reflexivity|].
  unfold brace_span in *. cbn [app from_first_open].
  destruct (is_space_not_brace _ Hc) as [Hl _].
  destruct (N.eqb_spec c lbrace); [contradiction | exact IH].
Qed.

Lemma upto_last_close_pad (s ws : jsstring) :
  Forall (fun c => is_space c = true) ws ->
  upto_last_close (s ++ ws) = upto_last_close s.
Proof.
  intros H. induction s as [|c s IH]; cbn [app upto_last_close].
  - apply upto_last_close_none. intros Hin.
    rewrite Forall_forall in H. apply H in Hin.
    now destruct (is_space_not_brace _ Hin).
  - now rewrite IH.
Qed.

Lemma brace_span_pad (s ws : jsstring) :
  Forall (fun c => is_space c = true) ws -> brace_span (s ++ ws) = brace_span s.
Proof.
  intros H. unfold brace_span.
  induction s as [|c s IH]; cbn [app from_first_open].
  - induction H as [|c ws Hc _ IH]; [reflexivity|].
    cbn [from_first_open]. destruct (is_space_not_brace _ Hc) as [Hl _].
    destruct (N.eqb_spec c lbrace); [contradiction | exact IH].
  - destruct (c =? lbrace)%N; [|exact IH].
    now rewrite upto_last_close_pad.
Qed.

Lemma brace_span_trim (s : jsstring) : brace_span (trim s) = brace_span s.
Proof.
  unfold trim.
  destruct (trimEnd_split (trimStart s)) as (ws & Hs & Hw).
  destruct (trimStart_split s) as (ws' & Hs' & Hw').
  rewrite Hs' at 2. rewrite brace_span_skip by assumption.
  rewrite Hs at 2. now rewrite brace_span_pad.
Qed.

(** X7: the call of [trim] changes nothing.  extractJSON gives what it
    would give by matching the brace pattern on the text right after the
    fence markers are removed. *)
Theorem extractJSON_trim_is_redundant (text : jsstring) :
  extractJSON (VStr text) =
  match str_match (replace_all text fence_re []) brace_re with
  | None => inl (JsError no_json_message)
  | Some m0 =>
      match JSON_parse m0 with
      | Some v => inr v
      | None => inl JsSyntaxError
      end
  end.
Proof.
  unfold extractJSON. now rewrite !str_match_brace, brace_span_trim.
Qed.

(** The first code unit of the text is a backtick. *)
Local Abbreviation starts_with_tick s :=
  (match s with c :: _ => (c =? 96)%N | [] => false end).

Lemma keyword_no_tick (w s : jsstring) :
  starts_with_tick s = false -> keyword (96%N :: w) s = None.
Proof.
  destruct s as [|c s]; [reflexivity|]. cbn [keyword]. unfold cu_eqb.
  rewrite N.eqb_sym. now intros ->.
Qed.

Lemma is_prefix_no_tick (w s : jsstring) :
  starts_with_tick s = false -> is_prefix (96%N :: w) s = false.
Proof.
  destruct s as [|c s]; [reflexivity|]. cbn [is_prefix]. unfold cu_eqb.
  rewrite N.eqb_sym. now intros ->.
Qed.

Lemma strip_fuel_head (fuel : nat) (s : jsstring) :
  starts_with_tick s = false ->
  starts_with_tick (strip_fuel fuel s) = false.
Proof.
  destruct fuel as [|fuel]; [reflexivity|]. intros H.
  cbn [strip_fuel].
  change (lit "```json") with (96%N :: lit "``json").
  change (lit "```") with (96%N :: lit "``").
  rewrite !keyword_no_tick by exact H.
  destruct s as [|c s]; [reflexivity | exact H].
Qed.

Lemma strip_fuel_single_tick (fuel : nat) (s : jsstring) :
  starts_with_tick s = false ->
  strip_fuel (S fuel) (96%N :: s) = 96%N :: strip_fuel fuel s.
Proof.
  intros H. cbn [strip_fuel].
  change (lit "```json") with (96%N :: 96%N :: lit "`json").
  change (lit "```") with (96%N :: 96%N :: lit "`").
  cbn [keyword]. unfold cu_eqb. rewrite N.eqb_refl.
  destruct s as [|x s]; [reflexivity|].
  rewrite N.eqb_sym, H. reflexivity.
Qed.

Lemma includes_unfold (s w : jsstring) :
  includes s w =
  is_prefix w s || match s with [] => false | _ :: s' => includes s' w end.
Proof. destruct s; reflexivity. Qed.

(** After the replace no fence marker is left. *)
Lemma strip_fuel_no_fence (fuel : nat) (s : jsstring) :
  length s < fuel -> includes (strip_fuel fuel s) (lit "```") = false.
Proof.
  revert s. induction fuel as [|fuel IH]; intros s H; [lia|].
  destruct s as [|c s]; [reflexivity|].
  cbn [strip_fuel].
  destruct (keyword (lit "```json") (c :: s)) as [rest|] eqn:E1.
  { apply IH. apply keyword_length in E1. cbn in E1, H. lia. }
  destruct (keyword (lit "```") (c :: s)) as [rest|] eqn:E2.
  { apply IH. apply keyword_length in E2. cbn in E2, H. lia. }
  rewrite includes_unfold, IH by (cbn in H; lia).
  rewrite orb_false_r.
  change (lit "```") with (96%N :: 96%N :: [96%N]) in *.
  destruct (N.eqb_spec c 96) as [->|Hc];
    [|apply is_prefix_no_tick; now apply N.eqb_neq].
  cbn [keyword] in E2. cbn [is_prefix]. unfold cu_eqb in *.
  rewrite N.eqb_refl in *. cbn [andb].
  destruct s as [|d s]; [destruct fuel; reflexivity|].
  destruct (N.eqb_spec d 96) as [->|Hd].
  - cbn [keyword] in E2. unfold cu_eqb in E2. rewrite N.eqb_refl in E2.
    assert (Hs : starts_with_tick s = false).
    { destruct s as [|x s]; [reflexivity|]. cbn [keyword] in E2.
      unfold cu_eqb in E2. rewrite N.eqb_sym.
      destruct (96 =? x)%N; [discriminate E2 | reflexivity]. }
    destruct fuel as [|fuel]; [cbn in H; lia|].
    rewrite strip_fuel_single_tick by exact Hs.
    cbn [is_prefix]. unfold cu_eqb. rewrite N.eqb_refl. cbn [andb].
    exact (is_prefix_no_tick [] _ (strip_fuel_head fuel s Hs)).
  - refine (is_prefix_no_tick [96%N] _ (strip_fuel_head fuel (d :: s) _)).
    now apply N.eqb_neq.
Qed.

Lemma keyword_is_prefix (w s rest : jsstring) :
  keyword w s = Some rest -> is_prefix w s = true.
Proof.
  revert s. induction w as [|a w IH]; intros s H; [reflexivity|].
  destruct s as [|b s]; [discriminate|]. cbn in *.
  destruct (cu_eqb a b); [now apply IH in H | discriminate].
Qed.

(** A text without a marker is left as it is. *)
Lemma strip_fuel_id (fuel : nat) (s : jsstring) :
  length s < fuel -> includes s (lit "```") = false -> strip_fuel fuel s = s.
Proof.
  revert s. induction fuel as [|fuel IH]; intros s H Hi; [lia|].
  destruct s as [|c s]; [reflexivity|].
  rewrite includes_unfold in Hi. apply orb_false_iff in Hi.
  destruct Hi as [Hp Hi]. cbn [strip_fuel].
  destruct (keyword (lit "```json") (c :: s)) as [rest|] eqn:E1.
  { apply keyword_app in E1. rewrite E1 in Hp. discriminate Hp. }
  destruct (keyword (lit "```") (c :: s)) as [rest|] eqn:E2.
  { apply keyword_is_prefix in E2. rewrite E2 in Hp. discriminate Hp. }
  f_equal. apply IH; [cbn in H; lia | exact Hi].
Qed.

Lemma strip_fuel_length (fuel : nat) (s : jsstring) :
  length (strip_fuel fuel s) <= length s.
Proof.
  revert s. induction fuel as [|fuel IH]; intros s; [cbn; lia|].
  cbn [strip_fuel].
  destruct (keyword (lit "```json") s) as [rest|] eqn:E1.
  { apply keyword_length in E1. specialize (IH rest). lia. }
  destruct (keyword (lit "```") s) as [rest|] eqn:E2.
  { apply keyword_length in E2. specialize (IH rest). lia. }
  destruct s as [|c s]; [lia|]. specialize (IH s). cbn. lia.
Qed.

(** X8: the replace on line 110 leaves no run of three backticks, never
    makes the text longer, leaves a text without such a run as it is, and so
    changes nothing when it is done again. *)
Theorem replace_fences_complete :
  (forall text, includes (replace_all text fence_re []) (lit "```") = false)
  /\ (forall text, length (replace_all text fence_re []) <= length text)
  /\ (forall text,
        includes text (lit "```") = false ->
        replace_all text fence_re [] = text)
  /\ (forall text,
        replace_all (replace_all text fence_re []) fence_re []
        = replace_all text fence_re []).
Proof.
  assert (A : forall text,
             includes (replace_all text fence_re []) (lit "```") = false).
  { intros text. rewrite replace_all_fence. apply strip_fuel_no_fence. lia. }
  assert (B : forall text,
             includes text (lit "```") = false ->
             replace_all text fence_re [] = text).
  { intros text H. rewrite replace_all_fence. apply strip_fuel_id; [lia|exact H]. }
  split; [exact A|]. split; [|split; [exact B|]].
  - intros text. rewrite replace_all_fence. apply strip_fuel_length.
  - intros text. apply B, A.
Qed.

Lemma replace_fences_complete_witness :
  replace_all (lit "`a``b` {}") fence_re [] = lit "`a``b` {}".
Proof.
  apply (proj1 (proj2 (proj2 replace_fences_complete))).
  vm_compute. reflexivity.
Defined.

Lemma strip_fuel_In (c : cu) (fuel : nat) (s : jsstring) :
  In c (strip_fuel fuel s) -> In c s.
Proof.
  revert s. induction fuel as [|fuel IH]; intros s; [intros []|].
  cbn [strip_fuel].
  destruct (keyword (lit "```json") s) as [rest|] eqn:E1.
  { intros H. apply IH in H. apply keyword_app in E1. subst s.
    apply in_or_app. now right. }
  destruct (keyword (lit "```") s) as [rest|] eqn:E2.
  { intros H. apply IH in H. apply keyword_app in E2. subst s.
    apply in_or_app. now right. }
  destruct s as [|d s]; [intros []|].
  intros [H|H]; [now left | right; now apply IH].
Qed.

Lemma trim_In (c : cu) (s : jsstring) : In c (trim s) -> In c s.
Proof.
  unfold trim. intros H.
  destruct (trimEnd_split (trimStart s)) as (ws & Hs & _).
  destruct (trimStart_split s) as (ws' & Hs' & _).
  rewrite Hs'. apply in_or_app. right.
  rewrite Hs. apply in_or_app. now left.
Qed.

(** X9: a text that has no opening brace, or no closing brace, makes
    extractJSON throw its Error "No JSON found in model response"; the empty
    text is one. *)
Theorem extractJSON_without_braces (text : jsstring) :
  ~ In lbrace text \/ ~ In rbrace text ->
  extractJSON (VStr text) = inl (JsError no_json_message).
Proof.
  intros H. rewrite extractJSON_unfold.
  assert (E : brace_span (trim (strip_fence_markers text)) = None).
  { apply brace_span_none. intros (pre & mid & post & Hc).
    assert (Hl : In lbrace text).
    { apply (strip_fuel_In lbrace (S (length text))). apply trim_In.
      fold (strip_fence_markers text). rewrite Hc.
      apply in_or_app. right. now left. }
    assert (Hr : In rbrace text).
    { apply (strip_fuel_In rbrace (S (length text))). apply trim_In.
      fold (strip_fence_markers text). rewrite Hc.
      apply in_or_app. right. right. apply in_or_app. right. now left. }
    tauto. }
  now rewrite E.
Qed.

Lemma extractJSON_without_braces_witness :
  extractJSON (VStr []) = inl (JsError no_json_message)
  /\ extractJSON (VStr (lit "```json difficulty: easy } ```"))
     = inl (JsError no_json_message).
Proof.
  split; apply extractJSON_without_braces.
  - left. intros [].
  - left. vm_compute. intuition discriminate.
Defined.

(** A fence around a text without backticks comes off whole. *)
Lemma strip_fuel_closing_fence (fuel : nat) (body : jsstring) :
  ~ In 96%N body -> length body + 3 < fuel ->
  strip_fuel fuel (body ++ lit "```") = body.
Proof.
  revert fuel. induction body as [|c body IH]; intros fuel Hb Hf.
  - destruct fuel as [|[|fuel]]; [cbn in Hf; lia | cbn in Hf; lia | reflexivity].
  - destruct fuel as [|fuel]; [lia|].
    assert (Hc : starts_with_tick ((c :: body) ++ lit "```") = false).
    { cbn. apply N.eqb_neq. intros ->. apply Hb. now left. }
    cbn [strip_fuel].
    change (lit "```json") with (96%N :: lit "``json").
    change (lit "```") with (96%N :: lit "``") at 2 3.
    rewrite !keyword_no_tick by exact Hc.
    cbn [app]. f_equal. apply IH; [|cbn in Hf; lia].
    intros Hin. apply Hb. now right.
Qed.

(** X10: a fence is transparent.  For a body without backticks,
    extractJSON gives on the body inside a json fence what it gives on the
    body alone. *)
Theorem extractJSON_fenced (body : jsstring) :
  ~ In 96%N body ->
  extractJSON (VStr (lit "```json" ++ body ++ lit "```"))
  = extractJSON (VStr body).
Proof.
  intros Hb. rewrite !extractJSON_unfold.
  assert (E1 : strip_fence_markers (lit "```json" ++ body ++ lit "```") = body).
  { unfold strip_fence_markers.
    change (lit "```json" ++ body ++ lit "```")
      with (lit "```json" ++ (body ++ lit "```")).
    cbn [strip_fuel]. rewrite keyword_prefix.
    apply strip_fuel_closing_fence; [exact Hb|].
    rewrite !length_app. cbn. lia. }
  assert (E2 : strip_fence_markers body = body).
  { unfold strip_fence_markers. apply strip_fuel_id; [lia|].
    clear E1. induction body as [|c body IH]; [reflexivity|].
    rewrite includes_unfold, IH by (intros Hin; apply Hb; now right).
    rewrite orb_false_r.
    change (lit "```") with (96%N :: lit "``").
    apply is_prefix_no_tick. cbn. apply N.eqb_neq.
    intros ->. apply Hb. now left. }
  now rewrite E1, E2.
Qed.

Lemma extractJSON_fenced_witness :
  extractJSON (VStr (lit "```json" ++ (nl ++ difficulty_text "medium" ++ nl)
                     ++ lit "```"))
  = extractJSON (VStr (nl ++ difficulty_text "medium" ++ nl)).
Proof.
  apply extractJSON_fenced. vm_compute. intuition discriminate.
Defined.

(** ** More on buildPrompt *)

Lemma is_prefix_app (w b : jsstring) : is_prefix w (w ++ b) = true.
Proof.
  induction w as [|a w IH]; [reflexivity|].
  cbn. unfold cu_eqb. now rewrite N.eqb_refl.
Qed.

Lemma is_prefix_app_r (w s b : jsstring) :
  is_prefix w s = true -> is_prefix w (s ++ b) = true.
Proof.
  revert s. induction w as [|a w IH]; intros s H; [reflexivity|].
  destruct s as [|c s]; [discriminate|]. cbn in *.
  apply andb_true_iff in H. destruct H as [-> H]. now apply IH.
Qed.

Lemma includes_app_r (s w b : jsstring) :
  includes s w = true -> includes (s ++ b) w = true.
Proof.
  induction s as [|c s IH]; intros H.
  - rewrite includes_unfold in H. rewrite orb_false_r in H.
    rewrite includes_unfold. now rewrite (is_prefix_app_r _ _ b H).
  - rewrite includes_unfold in H. apply orb_true_iff in H.
    change ((c :: s) ++ b) with (c :: s ++ b).
    rewrite includes_unfold. apply orb_true_iff.
    destruct H as [H|H]; [left; now apply (is_prefix_app_r _ (c :: s)) | right; auto].
Qed.

Lemma includes_app_l (a s w : jsstring) :
  includes s w = true -> includes (a ++ s) w = true.
Proof.
  intros H. induction a as [|c a IH]; [exact H|].
  change ((c :: a) ++ s) with (c :: a ++ s).
  rewrite includes_unfold, IH. apply orb_true_r.
Qed.

Lemma includes_refl (w : jsstring) : includes w w = true.
Proof.
  rewrite includes_unfold.
  rewrite <- (app_nil_r w) at 2. now rewrite is_prefix_app.
Qed.

Lemma includes_mid (a w b : jsstring) : includes (a ++ w ++ b) w = true.
Proof. apply includes_app_l, includes_app_r, includes_refl. Qed.

Lemma includes_join (sep : jsstring) (xs : list jsstring) (x : jsstring) :
  In x xs -> includes (join sep xs) x = true.
Proof.
  induction xs as [|y xs IH]; [intros []|].
  intros [->|H].
  - destruct xs as [|z xs]; [apply includes_refl|].
    cbn [join]. apply includes_app_r, includes_refl.
  - destruct xs as [|z xs]; [destruct H|].
    cbn [join]. apply includes_app_l, includes_app_l. now apply IH.
Qed.

(** X11: the prompt holds every field as it was given: the title, the
    description, the language and each label occur in it unchanged. *)
Theorem buildPrompt_includes_fields
    (title description language : jsstring) (labels : list jsstring) :
  let prompt := buildPrompt title description language (Some labels) in
  includes prompt title = true
  /\ includes prompt description = true
  /\ includes prompt language = true
  /\ (forall label, In label labels -> includes prompt label = true).
Proof.
  intros prompt. subst prompt. unfold buildPrompt.
  set (labelString := if 0 <? length labels
                      then join (lit ", ") labels else lit "None").
  repeat split.
  - rewrite (app_assoc tpl_rubric), (app_assoc _ tpl_task),
      (app_assoc _ tpl_title).
    apply includes_mid.
  - rewrite (app_assoc tpl_rubric), (app_assoc _ tpl_task),
      (app_assoc _ tpl_title), (app_assoc _ title),
      (app_assoc _ tpl_description).
    apply includes_mid.
  - rewrite (app_assoc tpl_rubric), (app_assoc _ tpl_task),
      (app_assoc _ tpl_title), (app_assoc _ title),
      (app_assoc _ tpl_description), (app_assoc _ description),
      (app_assoc _ tpl_language).
    apply includes_mid.
  - intros label H. apply includes_app_l, includes_app_r.
    subst labelString. destruct labels as [|l ls]; [destruct H|].
    cbn [length Nat.ltb Nat.leb]. now apply includes_join.
Qed.

Lemma buildPrompt_includes_fields_witness :
  includes (buildPrompt mediumTitle mediumDescription mediumLanguage
              (Some mediumLabels)) (lit "performance") = true.
Proof.
  apply (proj2 (proj2 (proj2
           (buildPrompt_includes_fields mediumTitle mediumDescription
              mediumLanguage mediumLabels)))).
  right. left. reflexivity.
Defined.

(** A field that holds the text of the next line reads like two fields. *)
Lemma buildPrompt_shift (a b c language : jsstring)
    (labels : option (list jsstring)) :
  buildPrompt (a ++ tpl_description ++ b) c language labels
  = buildPrompt a (b ++ tpl_description ++ c) language labels.
Proof.
  unfold buildPrompt. now rewrite <- !app_assoc.
Qed.

(** X12: buildPrompt does not escape its fields, so it is not injective:
    moving text between the title and the description across the line
    "Description: " gives the same prompt from two different issues. *)
Theorem buildPrompt_not_injective
    (a b c language : jsstring) (labels : option (list jsstring)) :
  let title1 := a ++ (nl ++ lit "    Description: ") ++ b in
  let description2 := b ++ (nl ++ lit "    Description: ") ++ c in
  buildPrompt title1 c language labels = buildPrompt a description2 language labels
  /\ title1 <> a
  /\ description2 <> c.
Proof.
  intros title1 description2. split; [apply buildPrompt_shift|].
  split; intros H; apply (f_equal (@length cu)) in H;
    subst title1 description2; rewrite !length_app in H; cbn in H; lia.
Qed.

(** Reading [res.choices[0].message.content] throws nothing but a
    TypeError. *)
Lemma first_choice_content_error (res : value) (e : exn) :
  first_choice_content res = inl e -> e = JsTypeError.
Proof.
  assert (G : forall v name x, get_prop v name = inl x -> x = JsTypeError).
  { intros v name x. destruct v; cbn;
      try match goal with |- context [if ?b then _ else _] => destruct b end;
      intros H;
      (discriminate H || (injection H as <-; reflexivity)). }
  assert (G' : forall v i x, get_index v i = inl x -> x = JsTypeError).
  { intros v i x. destruct v as [| | | |s| |]; cbn;
      try match goal with |- context [match ?o with Some _ => _ | None => _ end] =>
            destruct o end;
      intros H;
      (discriminate H || (injection H as <-; reflexivity)). }
  unfold first_choice_content.
  destruct (get_prop res (lit "choices")) as [x|choices] eqn:E1.
  { intros H. injection H as <-. eapply G. exact E1. }
  destruct (get_index choices 0) as [x|choice] eqn:E2.
  { intros H. injection H as <-. eapply G'. exact E2. }
  destruct (get_prop choice (lit "message")) as [x|message] eqn:E3.
  { intros H. injection H as <-. eapply G. exact E3. }
  apply G.
Qed.

(** X13: why an attempt can fail.  The error that the first handler gets
    is the one the provider call was rejected with, or a TypeError from a
    response without a text, or, for a response with a text, the Error
    "No JSON found in model response" or the SyntaxError of JSON.parse. *)
Theorem primary_failure_reasons
    (World : Type) (create : client -> request -> World -> outcome * World)
    (this : IssueClassifier) (prompt : jsstring) (st : state World) (err : exn) :
  fst (primary_attempt create this prompt st) = inl err ->
  let o := fst (create (mosaiaClient this)
                  (completion_request (mosaiaAgentId this) prompt) (world st)) in
  o = Rejected err
  \/ (exists res,
        o = Fulfilled res /\ err = JsTypeError
        /\ (first_choice_content res = inl JsTypeError
            \/ exists text, first_choice_content res = inr text
                            /\ forall s, text <> VStr s))
  \/ (exists res s,
        o = Fulfilled res /\ first_choice_content res = inr (VStr s)
        /\ (err = JsError no_json_message \/ err = JsSyntaxError)).
Proof.
  rewrite primary_attempt_value. intros H o. subst o.
  destruct (fst (create (mosaiaClient this) _ (world st))) as [res|e].
  - cbn [attempt_value] in H.
    destruct (first_choice_content res) as [e|text] eqn:E.
    + injection H as <-. pose proof (first_choice_content_error _ E) as ->.
      right. left. exists res. auto.
    + destruct text as [| | | |s| |]; cbn [extractJSON] in H;
        try (injection H as <-; right; left; exists res;
             split; [reflexivity|]; split; [reflexivity|]; right;
             eexists; split; [exact E | intros s0 Hs; discriminate Hs]).
      right. right. exists res, s. split; [reflexivity|]. split; [exact E|].
      now apply (extractJSON_errors s).
  - injection H as <-. now left.
Qed.

Lemma primary_failure_reasons_witness :
  exists res s,
    fst (stubbed (Fulfilled (chat_response (lit "{easy}")))
           (Rejected connection_error)
           (mosaiaClient sample_classifier)
           (completion_request (mosaiaAgentId sample_classifier) easyPrompt)
           (world start))
    = Fulfilled res
    /\ first_choice_content res = inr (VStr s).
Proof.
  assert (P : fst (primary_attempt
                     (stubbed (Fulfilled (chat_response (lit "{easy}")))
                        (Rejected connection_error))
                     sample_classifier easyPrompt start)
              = inl JsSyntaxError) by (vm_compute; reflexivity).
  destruct (primary_failure_reasons _ _ _ _ P)
    as [H | [(res & _ & H & _) | (res & s & H1 & H2 & _)]].
  - vm_compute in H. discriminate H.
  - discriminate H.
  - exists res, s. split; assumption.
Defined.

(** ** Instances of the further properties *)

Lemma classifyIssue_object_or_null_witness :
  fst (classifyIssue
         (stubbed (Rejected connection_error) (Fulfilled (VObj [])))
         sample_classifier easyTitle easyDescription easyLanguage
         (Some easyLabels) start)
  = inr VNull.
Proof.
  apply (proj2 (proj2 (classifyIssue_object_or_null
                         (stubbed (Rejected connection_error)
                            (Fulfilled (VObj [])))
                         sample_classifier easyTitle easyDescription
                         easyLanguage (Some easyLabels) start))).
  split; eexists; vm_compute; reflexivity.
Defined.

Lemma classifyIssue_console_record_witness :
  exists evs,
    trace (snd (classifyIssue
                  (stubbed (Rejected connection_error) (Fulfilled (VObj [])))
                  sample_classifier easyTitle easyDescription easyLanguage
                  (Some easyLabels) start))
    = trace start ++ evs
    /\ filter is_error evs <> [].
Proof.
  destruct (classifyIssue_console_record
              (stubbed (Rejected connection_error) (Fulfilled (VObj [])))
              sample_classifier easyTitle easyDescription easyLanguage
              (Some easyLabels) start)
    as (evs & Ht & _ & _ & _ & _ & He).
  exists evs. split; [exact Ht|].
  apply (proj2 He). vm_compute. reflexivity.
Defined.

Lemma buildPrompt_not_injective_witness :
  buildPrompt (lit "Crash" ++ (nl ++ lit "    Description: ") ++ lit "on start")
    (lit "see log") (lit "Go") None
  = buildPrompt (lit "Crash")
      (lit "on start" ++ (nl ++ lit "    Description: ") ++ lit "see log")
      (lit "Go") None.
Proof.
  apply (proj1 (buildPrompt_not_injective (lit "Crash") (lit "on start")
                  (lit "see log") (lit "Go") None)).
Defined.
